(** * TrendRadar: the report renderer of [mcp_server/tools/deepseek_client.py]

    A shallow embedding of
    - [md_to_html], the line-oriented block parser and renderer (Python),
    - the card-ification script that the generated page runs on the rendered
      markup (JavaScript, embedded in [generate_ai_html_from_md]),
    - the response handling of [call_deepseek],
    together with the properties of the specification that concern them.

    Text is a list of Unicode code points.  Python's [str] is a sequence of
    code points; a JavaScript string is a sequence of UTF-16 code units, and
    every operation the script uses ([trim], [split] on the full-width colon,
    [startsWith], prefix regular expressions, [includes]) only inspects
    characters of the basic plane, where code units and code points agree and
    surrogate pairs are never cut. *)

From Stdlib Require Import List NArith String Ascii Bool Lia.
From stdpp Require Import gmap.
Import ListNotations.

Set Warnings "-register-all".

#[local] Open Scope N_scope.

(** ** Text *)

Definition char := N.
Definition str := list char.

(** Literals are written as UTF-8 string literals and decoded to code points. *)
Fixpoint utf8_decode (bs : list N) : str :=
  match bs with
  | [] => []
  | b0 :: t0 =>
      if b0 <? 128 then b0 :: utf8_decode t0
      else if b0 <? 224 then
        match t0 with
        | b1 :: t1 => ((b0 - 192) * 64 + (b1 - 128)) :: utf8_decode t1
        | _ => []
        end
      else if b0 <? 240 then
        match t0 with
        | b1 :: b2 :: t2 =>
            ((b0 - 224) * 4096 + (b1 - 128) * 64 + (b2 - 128)) :: utf8_decode t2
        | _ => []
        end
      else
        match t0 with
        | b1 :: b2 :: b3 :: t3 =>
            ((b0 - 240) * 262144 + (b1 - 128) * 4096 + (b2 - 128) * 64 + (b3 - 128))
              :: utf8_decode t3
        | _ => []
        end
  end.

Definition lit (s : string) : str :=
  utf8_decode (List.map N_of_ascii (list_ascii_of_string s)).

Fixpoint str_eqb (a b : str) : bool :=
  match a, b with
  | [], [] => true
  | x :: a', y :: b' => (x =? y) && str_eqb a' b'
  | _, _ => false
  end.

(** [s.startswith(p)] and [s.startsWith(p)], also the test of a regular
    expression [^p] for a literal [p]. *)
Fixpoint startswith (p s : str) : bool :=
  match p, s with
  | [], _ => true
  | x :: p', y :: s' => (x =? y) && startswith p' s'
  | _ :: _, [] => false
  end.

(** The test of an unanchored literal regular expression: [p] occurs in [s]. *)
Fixpoint contains (p s : str) : bool :=
  startswith p s || match s with [] => false | _ :: s' => contains p s' end.

(** Membership in an array of strings ([Array.prototype.includes]). *)
Definition includes (l : list str) (s : str) : bool := existsb (str_eqb s) l.

Definition nonempty (s : str) : bool :=
  match s with [] => false | _ :: _ => true end.

(** Splitting at every occurrence of one separator character, as both
    Python's [s.split(sep)] and JavaScript's [s.split(sep)] do: at least one
    field, empty fields kept. *)
Fixpoint split_on (sep : char) (s : str) : list str :=
  match s with
  | [] => [[]]
  | c :: t =>
      if c =? sep then [] :: split_on sep t
      else match split_on sep t with
           | f :: fs => (c :: f) :: fs
           | [] => [[c]]
           end
  end.

(** Dropping characters of a class from the left and from the right. *)
Fixpoint lstrip_by (f : char -> bool) (s : str) : str :=
  match s with
  | [] => []
  | c :: t => if f c then lstrip_by f t else s
  end.

Fixpoint rstrip_by (f : char -> bool) (s : str) : str :=
  match s with
  | [] => []
  | c :: t =>
      match rstrip_by f t with
      | [] => if f c then [] else [c]
      | t' => c :: t'
      end
  end.

(** ** Python string primitives *)

Module Py.

(** [str.isspace] for one character: the characters [str.strip()] removes. *)
Definition isspace (c : char) : bool :=
  ((9 <=? c) && (c <=? 13)) || ((28 <=? c) && (c <=? 32))
  || (c =? 133) || (c =? 160) || (c =? 5760)
  || ((8192 <=? c) && (c <=? 8202))
  || (c =? 8232) || (c =? 8233) || (c =? 8239) || (c =? 8287) || (c =? 12288).

(** The line boundaries of [str.splitlines]. *)
Definition islinebreak (c : char) : bool :=
  ((10 <=? c) && (c <=? 13)) || ((28 <=? c) && (c <=? 30))
  || (c =? 133) || (c =? 8232) || (c =? 8233).

Definition lstrip := lstrip_by isspace.
Definition rstrip := rstrip_by isspace.
Definition strip (s : str) : str := lstrip (rstrip s).

(** [s.strip(chars)] for a one-character set. *)
Definition strip_char (ch : char) (s : str) : str :=
  lstrip_by (N.eqb ch) (rstrip_by (N.eqb ch) s).

(** [s.split(sep)] for a one-character separator. *)
Definition split := split_on.

(** [s.replace(old, new)]: leftmost, non-overlapping occurrences.  [skip]
    counts the characters of a match still to be dropped. *)
Fixpoint replace_from (old new : str) (skip : nat) (s : str) : str :=
  match s with
  | [] => []
  | c :: t =>
      match skip with
      | S k => replace_from old new k t
      | O =>
          if nonempty old && startswith old s
          then new ++ replace_from old new (Nat.pred (List.length old)) t
          else c :: replace_from old new O t
      end
  end.

Definition replace (old new s : str) : str := replace_from old new O s.

(** [sep.join(parts)]. *)
Fixpoint join (sep : str) (parts : list str) : str :=
  match parts with
  | [] => []
  | [p] => p
  | p :: rest => p ++ sep ++ join sep rest
  end.

(** [s.splitlines()]: [cur] is the line being read, reversed.  A carriage
    return followed by a line feed is one boundary; no empty line is
    produced after a final boundary. *)
Fixpoint splitlines_from (cur : str) (s : str) : list str :=
  match s with
  | [] => match cur with [] => [] | _ => [rev cur] end
  | c :: t =>
      if islinebreak c then
        match t with
        | c' :: t' =>
            if (c =? 13) && (c' =? 10)
            then rev cur :: splitlines_from [] t'
            else rev cur :: splitlines_from [] t
        | [] => [rev cur]
        end
      else splitlines_from (c :: cur) t
  end.

Definition splitlines (s : str) : list str := splitlines_from [] s.

(** [re.fullmatch(r"-+", c)] is a match: one or more dashes and nothing else. *)
Definition fullmatch_dashes (c : str) : bool :=
  nonempty c && forallb (N.eqb 45) c.

(** Exceptions, and subscripting, which is where a sequence can raise. *)
Inductive exn :=
  IndexError | KeyError | TypeError | AttributeError | ValueError | RuntimeError
| OSError.

Inductive result (A : Type) :=
| Ok (a : A)
| Raise (e : exn).
Arguments Ok {A} a.
Arguments Raise {A} e.

Definition bind {A B} (m : result A) (k : A -> result B) : result B :=
  match m with
  | Ok a => k a
  | Raise e => Raise e
  end.

Definition getitem {A} (l : list A) (i : nat) : result A :=
  match nth_error l i with
  | Some x => Ok x
  | None => Raise IndexError
  end.

End Py.

Notation "'do' x <- m ; k" := (Py.bind m (fun x => k))
  (at level 10, x name, m at level 100, k at level 200).

(** ** The block parser and renderer: [md_to_html] *)

(** What [md_to_html] appends to [out].  One block stands for the strings
    that one emission site appends; [render_block] gives those strings. *)
Inductive block :=
| Heading3 (text : str)
| Heading4 (text : str)
| ListBlock (items : list str)
| TableBlock (header : list str) (body_rows : list (list str))
| HorizontalRule
| Paragraph (text : str).

Definition quote : char := 34.
Definition pipe : char := 124.

Definition hr_markup : str :=
  lit "<hr style=" ++ [quote]
  ++ lit "border:none;border-top:1px solid #eee; margin:12px 0;"
  ++ [quote] ++ lit " />".

Definition tagged (open_tag close_tag text : str) : str :=
  open_tag ++ text ++ close_tag.

Definition render_block (b : block) : list str :=
  match b with
  | Heading3 t => [tagged (lit "<h3>") (lit "</h3>") t]
  | Heading4 t => [tagged (lit "<h4>") (lit "</h4>") t]
  | ListBlock items =>
      lit "<ul>" :: List.map (tagged (lit "<li>") (lit "</li>")) items ++ [lit "</ul>"]
  | TableBlock header body_rows =>
      (lit "<table><thead><tr>"
         ++ List.concat (List.map (tagged (lit "<th>") (lit "</th>")) header)
         ++ lit "</tr></thead><tbody>")
      :: List.map (fun row =>
             lit "<tr>"
               ++ List.concat (List.map (tagged (lit "<td>") (lit "</td>")) row)
               ++ lit "</tr>") body_rows
      ++ [lit "</tbody></table>"]
  | HorizontalRule => [hr_markup]
  | Paragraph t => [tagged (lit "<p>") (lit "</p>") t]
  end.

(** The local variables of [md_to_html] that its closures share. *)
Record pstate := PState {
  out : list block;
  in_list : bool;
  list_items : list str;
  in_table : bool;
  table_lines : list str
}.

Definition init_state : pstate := PState [] false [] false [].

Definition emit (st : pstate) (b : block) : pstate :=
  PState (out st ++ [b]) (in_list st) (list_items st) (in_table st) (table_lines st).

Definition flush_list (st : pstate) : pstate :=
  let st1 :=
    if in_list st && negb (Nat.eqb (List.length (list_items st)) 0)
    then emit st (ListBlock (list_items st))
    else st in
  PState (out st1) false [] (in_table st1) (table_lines st1).

(** One table line to its cells:
    [[c.strip() for c in tline.strip().strip("|").split("|")]]. *)
Definition parse_row (tline : str) : list str :=
  List.map Py.strip (Py.split pipe (Py.strip_char pipe (Py.strip tline))).

(** [all(re.fullmatch(r"-+", c) or c == "" for c in row)]. *)
Definition is_separator (row : list str) : bool :=
  forallb (fun c => Py.fullmatch_dashes c || str_eqb c []) row.

Definition flush_table (st : pstate) : Py.result pstate :=
  do st1 <-
    (if in_table st && negb (Nat.eqb (List.length (table_lines st)) 0) then
       let rows := List.map parse_row (table_lines st) in
       do header <-
         (match rows with
          | [] => Py.Ok []
          | _ :: _ => Py.getitem rows 0
          end);
       let body_rows := skipn 1 rows in
       do body_rows' <-
         (match body_rows with
          | [] => Py.Ok body_rows
          | _ :: _ =>
              do second <- Py.getitem body_rows 0;
              Py.Ok (if is_separator second then skipn 1 body_rows else body_rows)
          end);
       Py.Ok (emit st (TableBlock header body_rows'))
     else Py.Ok st);
  Py.Ok (PState (out st1) (in_list st1) (list_items st1) false []).

Definition h3_prefix : str := Eval vm_compute in lit "### ".
Definition h4_prefix : str := Eval vm_compute in lit "#### ".
Definition rule_line : str := Eval vm_compute in lit "---".
Definition list_marker : str := Eval vm_compute in lit "- ".
Definition bold_marker : str := Eval vm_compute in lit "**".

(** The body of [for raw in lines]. *)
Definition step (st : pstate) (raw : str) : Py.result pstate :=
  let line := Py.rstrip raw in
  let stripped := Py.strip line in
  if startswith h3_prefix stripped then
    do st1 <- flush_table (flush_list st);
    Py.Ok (emit st1 (Heading3 (Py.strip (skipn 4 stripped))))
  else if startswith h4_prefix stripped then
    do st1 <- flush_table (flush_list st);
    Py.Ok (emit st1 (Heading4 (Py.strip (skipn 5 stripped))))
  else if startswith [pipe] stripped then
    let st1 := flush_list st in
    Py.Ok (PState (out st1) (in_list st1) (list_items st1) true
             (table_lines st1 ++ [stripped]))
  else
    do st1 <- (if in_table st then flush_table st else Py.Ok st);
    if str_eqb stripped rule_line then
      Py.Ok (emit (flush_list st1) HorizontalRule)
    else if startswith list_marker stripped then
      let item := Py.strip (Py.replace bold_marker [] (skipn 2 stripped)) in
      Py.Ok (PState (out st1) true (list_items st1 ++ [item])
               (in_table st1) (table_lines st1))
    else
      let st2 := flush_list st1 in
      if nonempty stripped
      then Py.Ok (emit st2 (Paragraph (Py.replace bold_marker [] stripped)))
      else Py.Ok st2.

Fixpoint run_lines (st : pstate) (lines : list str) : Py.result pstate :=
  match lines with
  | [] => Py.Ok st
  | raw :: rest => do st' <- step st raw; run_lines st' rest
  end.

(** The blocks appended to [out] for a list of lines, final flushes included. *)
Definition parse_lines (lines : list str) : Py.result (list block) :=
  do st <- run_lines init_state lines;
  do st' <- flush_table (flush_list st);
  Py.Ok (out st').

Definition md_blocks (md : str) : Py.result (list block) :=
  parse_lines (Py.splitlines md).

Definition newline : str := [10].

Definition md_to_html (md : str) : Py.result str :=
  do blocks <- md_blocks md;
  Py.Ok (Py.join newline (List.concat (List.map render_block blocks))).

(** ** The rendered markup as the script sees it

    The children of the [.markdown] element, restricted to the shapes that
    [md_to_html] emits and that the script builds.  A text is the
    [textContent] of its element, which is the emitted text whenever that
    text holds no markup character.  Cards and card containers are [div]
    elements; a card records the values its template interpolates. *)

Inductive review_content :=
| NoContent
| ListContent (items : list str)
| ParaContent (text : str).

Inductive card :=
| PriorityCard (title urgency confidence reason suggest : str)
| SectionCard (title : str) (items : list str)
| EventCard (evt date effect view sector adv : str)
| ReviewCard (key : str) (content : review_content).

Inductive node :=
| H3 (text : str)
| H4 (text : str)
| P (text : str)
| UL (items : list str)
| TABLE (headers : list str) (rows : list (list str))
| HR
| CARD (c : card)
| SECTION (cards : list card).




(** ** JavaScript string primitives *)

Module Js.

(** White space and line terminators: what [trim] removes and [\s] matches. *)
Definition isspace (c : char) : bool :=
  ((9 <=? c) && (c <=? 13)) || (c =? 32) || (c =? 160) || (c =? 5760)
  || ((8192 <=? c) && (c <=? 8202))
  || (c =? 8232) || (c =? 8233) || (c =? 8239) || (c =? 8287)
  || (c =? 12288) || (c =? 65279).

Definition trim (s : str) : str := lstrip_by isspace (rstrip_by isspace s).

(** A string is truthy when it is not empty; [undefined] is [None]. *)
Definition truthy (v : option str) : bool :=
  match v with
  | Some (_ :: _) => true
  | _ => false
  end.

(** [a || b || ... || default]. *)
Fixpoint first_truthy (cands : list (option str)) (default : str) : str :=
  match cands with
  | [] => default
  | Some (c :: v) :: _ => c :: v
  | _ :: rest => first_truthy rest default
  end.

(** [s || default]. *)
Definition or_else (s default : str) : str := first_truthy [Some s] default.

End Js.

Definition colon : char := Eval vm_compute in hd 0 (lit "：").

(** [t.replace(/^label\s*：?/, '')]. *)
Definition strip_label (label t : str) : str :=
  if startswith label t then
    match lstrip_by Js.isspace (skipn (List.length label) t) with
    | c :: rest => if c =? colon then rest else c :: rest
    | [] => []
    end
  else t.

(** [t.split('：')[1]?.trim() || t.replace(/^label\s*：?/, '').trim()]. *)
Definition label_value (label t : str) : str :=
  Js.first_truthy [option_map Js.trim (nth_error (split_on colon t) 1)]
                  (Js.trim (strip_label label t)).

Definition lbl_title : str := Eval vm_compute in lit "标题".
Definition lbl_reason : str := Eval vm_compute in lit "原因".
Definition lbl_urgency : str := Eval vm_compute in lit "紧迫度".
Definition lbl_confidence : str := Eval vm_compute in lit "置信度".
Definition lbl_suggest : str := Eval vm_compute in lit "执行建议".
Definition default_title : str := Eval vm_compute in lit "重点事项".
Definition dash : str := Eval vm_compute in lit "-".

(** The [let title='', reason='', urgency='', confidence='', suggest=''] of
    the two priority scans. *)
Record fields := Fields {
  f_title : str;
  f_reason : str;
  f_urgency : str;
  f_confidence : str;
  f_suggest : str
}.

Definition no_fields : fields := Fields [] [] [] [] [].

Definition priority_card (f : fields) : card :=
  PriorityCard (Js.or_else (f_title f) default_title)
               (Js.or_else (f_urgency f) dash)
               (Js.or_else (f_confidence f) dash)
               (f_reason f) (f_suggest f).

(** ** Scan of the priority labels: a label paragraph and its list *)

Definition priorityLabels : list str :=
  Eval vm_compute in
  [lit "高优先级事项："; lit "中优先级事项："; lit "低优先级事项："].

(** The body of [items.forEach(t => ...)]. *)
Definition item_field (f : fields) (t : str) : fields :=
  if startswith lbl_title t then
    Fields (label_value lbl_title t) (f_reason f) (f_urgency f) (f_confidence f) (f_suggest f)
  else if startswith lbl_reason t then
    Fields (f_title f) (label_value lbl_reason t) (f_urgency f) (f_confidence f) (f_suggest f)
  else if startswith lbl_urgency t then
    Fields (f_title f) (f_reason f) (label_value lbl_urgency t) (f_confidence f) (f_suggest f)
  else if startswith lbl_confidence t then
    Fields (f_title f) (f_reason f) (f_urgency f) (label_value lbl_confidence t) (f_suggest f)
  else if startswith lbl_suggest t then
    Fields (f_title f) (f_reason f) (f_urgency f) (f_confidence f) (label_value lbl_suggest t)
  else f.

(** [Array.from(md.querySelectorAll('p')).forEach(p => ...)].  The
    paragraphs are visited in document order; a visit changes nothing but the
    paragraph itself and its next sibling, so the visits are one pass from
    left to right over the children.  A paragraph inside a card has no next
    sibling and is left alone. *)
Fixpoint priority_label_scan (kids : list node) : list node :=
  match kids with
  | [] => []
  | P t :: rest =>
      if includes priorityLabels (Js.trim t) then
        match rest with
        | UL items :: rest' =>
            CARD (priority_card (fold_left item_field (List.map Js.trim items) no_fields))
              :: priority_label_scan rest'
        | _ => P t :: priority_label_scan rest
        end
      else P t :: priority_label_scan rest
  | n :: rest => n :: priority_label_scan rest
  end.

(** ** Scan of the thematic sections *)

Definition cardSectionTitles : list str :=
  Eval vm_compute in
  [lit "宏观层面："; lit "行业层面："; lit "个股层面："; lit "布局建议：";
   lit "主要风险："; lit "对冲建议："; lit "宏观影响："; lit "行业影响：";
   lit "个股影响："].

(** [text.replace(/：$/, '')]. *)
Definition drop_final_colon (text : str) : str :=
  match rev text with
  | c :: r => if c =? colon then rev r else text
  | [] => text
  end.

Fixpoint thematic_scan (kids : list node) : list node :=
  match kids with
  | [] => []
  | P t :: rest =>
      if includes cardSectionTitles (Js.trim t) then
        match rest with
        | UL items :: rest' =>
            CARD (SectionCard (drop_final_colon (Js.trim t)) items)
              :: thematic_scan rest'
        | _ => P t :: thematic_scan rest
        end
      else P t :: thematic_scan rest
  | n :: rest => n :: thematic_scan rest
  end.

(** ** Scan of the event table *)

Definition hdr_event : str := Eval vm_compute in lit "事件".
Definition hdr_event_name : str := Eval vm_compute in lit "事件名称".
Definition hdr_date : str := Eval vm_compute in lit "日期".
Definition hdr_date_window : str := Eval vm_compute in lit "日期/窗口".
Definition hdr_time_window : str := Eval vm_compute in lit "时间窗口".
Definition hdr_view : str := Eval vm_compute in lit "观点".
Definition hdr_forward_view : str := Eval vm_compute in lit "前瞻观点".
Definition hdr_effect : str := Eval vm_compute in lit "影响".
Definition hdr_market_effect : str := Eval vm_compute in lit "市场影响".
Definition hdr_sector : str := Eval vm_compute in lit "板块与标的".
Definition hdr_advice : str := Eval vm_compute in lit "建议".
Definition hdr_advice_hedge : str := Eval vm_compute in lit "建议与对冲".

(** [const map = {}; headers.forEach((h,i) => map[h] = cells[i] || '')]:
    the object is only read at the twelve fixed header names, none of which
    is a property of [Object.prototype]. *)
Fixpoint header_map (m : gmap (list N) (list N)) (i : nat)
    (headers cells : list str) : gmap (list N) (list N) :=
  match headers with
  | [] => m
  | h :: hs =>
      header_map (<[h := Js.first_truthy [nth_error cells i] []]> m) (S i) hs cells
  end.

(** The card of one body row; [headers] and [cells] are already trimmed. *)
Definition event_card (headers cells : list str) : card :=
  let map := header_map ∅ 0 headers cells in
  let evt := Js.first_truthy
               [map !! hdr_event; map !! hdr_event_name; nth_error cells 0] hdr_event in
  let date := Js.first_truthy
                [map !! hdr_date; map !! hdr_date_window; map !! hdr_time_window;
                 nth_error cells 1] [] in
  let view := Js.first_truthy
                [map !! hdr_view; map !! hdr_forward_view; nth_error cells 2] [] in
  let effect := Js.first_truthy
                  [map !! hdr_effect; map !! hdr_market_effect; nth_error cells 3] [] in
  let sector := Js.first_truthy [map !! hdr_sector; nth_error cells 4] [] in
  let adv := Js.first_truthy
               [map !! hdr_advice; map !! hdr_advice_hedge; nth_error cells 5] [] in
  EventCard evt (Js.or_else date dash) (Js.or_else effect dash) view sector adv.

Definition table_cards (headers : list str) (rows : list (list str)) : list card :=
  List.map (fun tr => event_card (List.map Js.trim headers) (List.map Js.trim tr)) rows.

(** [const table = md.querySelector('table'); if (table) { ... }]: the first
    table in document order is replaced by the container of its row cards. *)
Fixpoint event_table_scan (kids : list node) : list node :=
  match kids with
  | [] => []
  | TABLE headers rows :: rest => SECTION (table_cards headers rows) :: rest
  | n :: rest => n :: event_table_scan rest
  end.

(** ** The two scans anchored on a level-3 heading

    A node of the walk is its position among the children of [.markdown];
    [nextElementSibling] is the next position, [null] a position past the
    end. *)

(** [Array.from(md.querySelectorAll('h3')).find(h => /pat/.test(h.textContent))]. *)
Fixpoint find_h3_from (pat : str) (i : nat) (kids : list node) : option nat :=
  match kids with
  | [] => None
  | H3 t :: rest => if contains pat t then Some i else find_h3_from pat (S i) rest
  | _ :: rest => find_h3_from pat (S i) rest
  end.

Definition find_h3 (pat : str) (kids : list node) : option nat :=
  find_h3_from pat 0 kids.

(** [if (list.length) { parent.insertBefore(container, list[0]);
    list.forEach(n => n.remove()) }]. *)
Fixpoint remove_at (removed : list nat) (first : nat) (container : node)
    (i : nat) (kids : list node) : list node :=
  match kids with
  | [] => []
  | n :: rest =>
      (if Nat.eqb i first then [container] else [])
      ++ (if existsb (Nat.eqb i) removed then [] else [n])
      ++ remove_at removed first container (S i) rest
  end.

Definition replace_removed (removed : list nat) (container : node)
    (kids : list node) : list node :=
  match removed with
  | [] => kids
  | first :: _ => remove_at removed first container 0 kids
  end.

Definition pat_priority : str := Eval vm_compute in lit "优先级".
Definition pat_review : str := Eval vm_compute in lit "大盘复盘".

(** The body of [if (cursor.tagName === 'P') { ... }]. *)
Definition paragraph_field (f : fields) (t : str) : fields :=
  if startswith lbl_reason t then
    Fields (f_title f) (Js.trim (strip_label lbl_reason t)) (f_urgency f)
           (f_confidence f) (f_suggest f)
  else if startswith lbl_urgency t then
    Fields (f_title f) (f_reason f) (Js.trim (strip_label lbl_urgency t))
           (f_confidence f) (f_suggest f)
  else if startswith lbl_confidence t then
    Fields (f_title f) (f_reason f) (f_urgency f)
           (Js.trim (strip_label lbl_confidence t)) (f_suggest f)
  else if startswith lbl_suggest t then
    Fields (f_title f) (f_reason f) (f_urgency f) (f_confidence f)
           (Js.trim (strip_label lbl_suggest t))
  else f.

(** [while (cursor && cursor.tagName !== 'UL' && cursor.tagName !== 'H3')]:
    [cursor] is the list of siblings from position [i] on.  Returns the
    fields, the extended removal list and the position where the walk
    stopped. *)
Fixpoint collect_fields (f : fields) (toRemove : list nat) (i : nat)
    (cursor : list node) : fields * list nat * nat :=
  match cursor with
  | [] => (f, toRemove, i)
  | UL _ :: _ => (f, toRemove, i)
  | H3 _ :: _ => (f, toRemove, i)
  | P t :: rest =>
      collect_fields (paragraph_field f (Js.trim t)) (toRemove ++ [i]) (S i) rest
  | _ :: rest => collect_fields f (toRemove ++ [i]) (S i) rest
  end.

(** [while (node && node.tagName !== 'H3')] of the priority scan; every turn
    moves [node] forward, [fuel] bounds the number of turns. *)
Fixpoint priority_walk (fuel : nat) (kids : list node) (i : nat)
    (cards : list card) (toRemove : list nat) : option (list card * list nat) :=
  match fuel with
  | O => None
  | S fuel' =>
      match nth_error kids i with
      | None => Some (cards, toRemove)
      | Some (H3 _) => Some (cards, toRemove)
      | Some (UL items) =>
          let titleText := match items with li :: _ => Js.trim li | [] => [] end in
          if startswith lbl_title titleText then
            let '(f, toRemove', j) :=
              collect_fields no_fields toRemove (S i) (skipn (S i) kids) in
            let f' := Fields (label_value lbl_title titleText) (f_reason f)
                             (f_urgency f) (f_confidence f) (f_suggest f) in
            priority_walk fuel' kids j (cards ++ [priority_card f']) (toRemove' ++ [i])
          else priority_walk fuel' kids (S i) cards (toRemove ++ [i])
      | Some _ => priority_walk fuel' kids (S i) cards (toRemove ++ [i])
      end
  end.

Definition priority_scan (kids : list node) : option (list node) :=
  match find_h3 pat_priority kids with
  | None => Some kids
  | Some h =>
      match priority_walk (S (List.length kids)) kids (S h) [] [] with
      | None => None
      | Some (cards, toRemove) => Some (replace_removed toRemove (SECTION cards) kids)
      end
  end.

Definition review_keys : list str :=
  Eval vm_compute in [lit "趋势"; lit "情绪"; lit "风格"].

(** [keys.find(k => new RegExp('^' + k).test(t))]. *)
Definition find_key (t : str) : option str :=
  List.find (fun k => startswith k t) review_keys.

(** [while (node && node.tagName !== 'H3')] of the market-review scan. *)
Fixpoint review_walk (fuel : nat) (kids : list node) (i : nat)
    (cards : list card) (removeList : list nat) : option (list card * list nat) :=
  match fuel with
  | O => None
  | S fuel' =>
      match nth_error kids i with
      | None => Some (cards, removeList)
      | Some (H3 _) => Some (cards, removeList)
      | Some (P t) =>
          match find_key (Js.trim t) with
          | Some key =>
              match nth_error kids (S i) with
              | Some (UL items) =>
                  review_walk fuel' kids (S (S i))
                    (cards ++ [ReviewCard key (ListContent items)])
                    (removeList ++ [S i; i])
              | Some (P t') =>
                  review_walk fuel' kids (S (S i))
                    (cards ++ [ReviewCard key (ParaContent (Js.trim t'))])
                    (removeList ++ [S i; i])
              | _ =>
                  review_walk fuel' kids (S i)
                    (cards ++ [ReviewCard key NoContent]) (removeList ++ [i])
              end
          | None => review_walk fuel' kids (S i) cards (removeList ++ [i])
          end
      | Some _ => review_walk fuel' kids (S i) cards (removeList ++ [i])
      end
  end.

Definition review_scan (kids : list node) : option (list node) :=
  match find_h3 pat_review kids with
  | None => Some kids
  | Some h =>
      match review_walk (S (List.length kids)) kids (S h) [] [] with
      | None => None
      | Some (cards, removeList) => Some (replace_removed removeList (SECTION cards) kids)
      end
  end.

(** The [DOMContentLoaded] handler: the five scans in the order of the script. *)
Definition cardify (kids : list node) : option (list node) :=
  let kids1 := priority_label_scan kids in
  let kids2 := thematic_scan kids1 in
  let kids3 := event_table_scan kids2 in
  match priority_scan kids3 with
  | None => None
  | Some kids4 => review_scan kids4
  end.

(** ** The response handling of [call_deepseek] *)

(** The Python value that [resp.json()] returns.  A [dict] is the list of
    its items; a number keeps its literal. *)
Inductive json :=
| JNull
| JBool (b : bool)
| JNum (literal : str)
| JStr (s : str)
| JArr (elems : list json)
| JObj (items : list (str * json)).

Fixpoint dict_get (items : list (str * json)) (key : str) : option json :=
  match items with
  | [] => None
  | (k, v) :: rest => if str_eqb k key then Some v else dict_get rest key
  end.

(** [v[key]] for a string key. *)
Definition subscript_key (v : json) (key : str) : Py.result json :=
  match v with
  | JObj items =>
      match dict_get items key with
      | Some x => Py.Ok x
      | None => Py.Raise Py.KeyError
      end
  | _ => Py.Raise Py.TypeError
  end.

(** [v[0]]: the keys of a decoded object are strings, so [0] is never one. *)
Definition subscript_zero (v : json) : Py.result json :=
  match v with
  | JArr elems => Py.getitem elems 0
  | JStr s => match s with c :: _ => Py.Ok (JStr [c]) | [] => Py.Raise Py.IndexError end
  | JObj _ => Py.Raise Py.KeyError
  | _ => Py.Raise Py.TypeError
  end.

(** [v.strip()]: only a string has the method. *)
Definition strip_method (v : json) : Py.result str :=
  match v with
  | JStr s => Py.Ok (Py.strip s)
  | _ => Py.Raise Py.AttributeError
  end.

Definition key_choices : str := Eval vm_compute in lit "choices".
Definition key_message : str := Eval vm_compute in lit "message".
Definition key_content : str := Eval vm_compute in lit "content".

(** [data["choices"][0]["message"]["content"].strip()]. *)
Definition read_content (data : json) : Py.result str :=
  do choices <- subscript_key data key_choices;
  do first <- subscript_zero choices;
  do message <- subscript_key first key_message;
  do content <- subscript_key message key_content;
  strip_method content.

(** What [requests.post] returned: the status code and, when the body is
    JSON, the value [resp.json()] decodes it to. *)
Record response := Response {
  status_code : Z;
  body_json : option json
}.

Section CallDeepseek.

(** [json.dumps(data, ensure_ascii=False, indent=2)] of the standard library. *)
Variable dumps : json -> str.

(** [call_deepseek] from the received response on. *)
Definition call_deepseek (resp : response) : Py.result str :=
  if negb (Z.eqb (status_code resp) 200) then Py.Raise Py.RuntimeError
  else
    do data <- (match body_json resp with
                | Some d => Py.Ok d
                | None => Py.Raise Py.ValueError
                end);
    match read_content data with
    | Py.Ok text => Py.Ok text
    | Py.Raise _ => Py.Ok (dumps data)
    end.

End CallDeepseek.

(** ** Reading the API key: [load_deepseek_api_key] *)

(** Truth of a Python value that is a string or [None]. *)
Definition py_truthy (v : option str) : bool :=
  match v with
  | Some (_ :: _) => true
  | _ => false
  end.

(** [s.split(sep, 1)]: the text before and after the first separator, or
    the text alone when it holds none. *)
Fixpoint split_once (sep : char) (s : str) : list str :=
  match s with
  | [] => [[]]
  | c :: t =>
      if c =? sep then [[]; t]
      else match split_once sep t with
           | f :: fs => (c :: f) :: fs
           | [] => [[c]]
           end
  end.

(** [k, v = parts]: unpacking into two names. *)
Definition unpack2 (parts : list str) : Py.result (str * str) :=
  match parts with
  | [k; v] => Py.Ok (k, v)
  | _ => Py.Raise Py.ValueError
  end.

Definition equals_sign : char := 61.
Definition hash_sign : char := 35.

Definition candidates : list str :=
  Eval vm_compute in [lit "deepseek_API_KEY"; lit "DEEPSEEK_API_KEY"].

(** The loop over the lines of the [.env] file; [None] is the [api_key]
    still unset when the loop ends. *)
Fixpoint scan_env_lines (lines : list str) : Py.result (option str) :=
  match lines with
  | [] => Py.Ok None
  | raw :: rest =>
      let line := Py.strip raw in
      if negb (nonempty line) || startswith [hash_sign] line then scan_env_lines rest
      else if existsb (N.eqb equals_sign) line then
        do kv <- unpack2 (split_once equals_sign line);
        if includes candidates (Py.strip (fst kv))
        then Py.Ok (Some (Py.strip (snd kv)))
        else scan_env_lines rest
      else scan_env_lines rest
  end.

(** [for name in candidates: api_key = os.environ.get(name); if api_key: break]. *)
Fixpoint scan_environ (environ : gmap (list N) (list N)) (names : list str)
    (api_key : option str) : option str :=
  match names with
  | [] => api_key
  | name :: rest =>
      let api_key' := environ !! name in
      if py_truthy api_key' then api_key' else scan_environ environ rest api_key'
  end.

(** What the file system answers about [env_path].  [env_path.exists()]
    stands before the [try]: it answers, or it raises for a path that cannot
    be probed (a directory without permission, a name that is too long).
    Reading stands inside the [try]: it gives the text or raises. *)
Inductive env_file :=
| ExistsRaises (e : Py.exn)
| Missing
| Unreadable (e : Py.exn)
| Readable (text : str).

(** [env_path.exists()]. *)
Definition path_exists (file : env_file) : Py.result bool :=
  match file with
  | ExistsRaises e => Py.Raise e
  | Missing => Py.Ok false
  | Unreadable _ | Readable _ => Py.Ok true
  end.

(** [env_path.read_text(encoding="utf-8")] of a file that exists. *)
Definition read_text (file : env_file) : Py.result str :=
  match file with
  | Readable text => Py.Ok text
  | Unreadable e | ExistsRaises e => Py.Raise e
  | Missing => Py.Raise Py.OSError
  end.

(** [load_deepseek_api_key], for the [env_path] it is given or computes. *)
Definition load_deepseek_api_key (file : env_file)
    (environ : gmap (list N) (list N)) : Py.result str :=
  do there <- path_exists file;
  let api_key :=
    if there then
      match (do text <- read_text file; scan_env_lines (Py.splitlines text)) with
      | Py.Ok found => found
      | Py.Raise _ => None
      end
    else None in
  let api_key :=
    if negb (py_truthy api_key) then scan_environ environ candidates api_key
    else api_key in
  match api_key with
  | Some (c :: key) => Py.Ok (c :: key)
  | _ => Py.Raise Py.RuntimeError
  end.

(** ** Reading one line of a file: [read_line_text] *)

(** [seq[i]] for an integer index: a negative index counts from the end. *)
Definition getitem_int {A} (l : list A) (i : Z) : Py.result A :=
  let n := Z.of_nat (List.length l) in
  if (0 <=? i)%Z && (i <? n)%Z then Py.getitem l (Z.to_nat i)
  else if (- n <=? i)%Z && (i <? 0)%Z then Py.getitem l (Z.to_nat (n + i))
  else Py.Raise Py.IndexError.

(** [read_line_text] from the text of the existing file on. *)
Definition read_line_text (text : str) (line_number : Z) : Py.result str :=
  let lines := Py.splitlines text in
  if (line_number <? 1)%Z || (Z.of_nat (List.length lines) <? line_number)%Z
  then Py.Raise Py.ValueError
  else do line <- getitem_int lines (line_number - 1); Py.Ok (Py.strip line).

(** ** Sending the report: [send_md_to_notifications] *)

(** What is passed to [requests.post] as the body: [json=], [data=] with a
    [json.dumps] text, or [data=] with a form. *)
Inductive body :=
| JsonArg (payload : json)
| DataDumps (payload : json)
| DataForm (fields : list (str * str)).

Record request := Request {
  url : str;
  sent : body;
  headers : list (str * str);
  timeout : Z;
  proxies : option (list (str * str))
}.

(** What [requests.post] does: it returns a response, of which only the
    status code is read, or it raises, and [str(e)] is recorded. *)
Inductive outcome :=
| Responded (code : Z)
| Failed (message : str).

(** A value of the [results] dictionary. *)
Inductive entry :=
| StatusCode (code : Z)
| ErrorText (message : str).

Definition cfg_feishu : str := Eval vm_compute in lit "FEISHU_WEBHOOK_URL".
Definition cfg_dingtalk : str := Eval vm_compute in lit "DINGTALK_WEBHOOK_URL".
Definition cfg_wework : str := Eval vm_compute in lit "WEWORK_WEBHOOK_URL".
Definition cfg_telegram_token : str := Eval vm_compute in lit "TELEGRAM_BOT_TOKEN".
Definition cfg_telegram_chat : str := Eval vm_compute in lit "TELEGRAM_CHAT_ID".

Definition res_feishu : str := Eval vm_compute in lit "feishu".
Definition res_feishu_error : str := Eval vm_compute in lit "feishu_error".
Definition res_dingtalk : str := Eval vm_compute in lit "dingtalk".
Definition res_dingtalk_error : str := Eval vm_compute in lit "dingtalk_error".
Definition res_wework : str := Eval vm_compute in lit "wework".
Definition res_wework_error : str := Eval vm_compute in lit "wework_error".
Definition res_telegram : str := Eval vm_compute in lit "telegram".
Definition res_telegram_error : str := Eval vm_compute in lit "telegram_error".

(** [config[key]] once [config.get(key)] was seen to be truthy. *)
Definition cfg (config : gmap (list N) (list N)) (key : str) : str :=
  default [] (config !! key).

Definition feishu_request (md_text : str) (config : gmap (list N) (list N))
    (proxies : option (list (str * str))) : request :=
  Request (cfg config cfg_feishu)
    (JsonArg (JObj [(lit "msg_type", JStr (lit "text"));
                    (lit "content", JObj [(lit "text", JStr md_text)])]))
    [] 30 proxies.

Definition dingtalk_request (md_text : str) (config : gmap (list N) (list N))
    (proxies : option (list (str * str))) : request :=
  Request (cfg config cfg_dingtalk)
    (DataDumps (JObj [(lit "msgtype", JStr (lit "markdown"));
                      (lit "markdown",
                       JObj [(lit "title", JStr (lit "AI深度分析"));
                             (lit "text", JStr md_text)])]))
    [(lit "Content-Type", lit "application/json")] 30 proxies.

Definition wework_request (md_text : str) (config : gmap (list N) (list N))
    (proxies : option (list (str * str))) : request :=
  Request (cfg config cfg_wework)
    (JsonArg (JObj [(lit "msgtype", JStr (lit "markdown"));
                    (lit "markdown", JObj [(lit "content", JStr md_text)])]))
    [] 30 proxies.

Definition telegram_request (md_text : str) (config : gmap (list N) (list N))
    (proxies : option (list (str * str))) : request :=
  Request (lit "https://api.telegram.org/bot" ++ cfg config cfg_telegram_token
           ++ lit "/sendMessage")
    (DataForm [(lit "chat_id", cfg config cfg_telegram_chat);
               (lit "text", md_text);
               (lit "parse_mode", lit "Markdown")])
    [] 30 proxies.

(** [proxies = None], or both schemes through [proxy_url] when it is given
    and not empty. *)
Definition proxies_for (proxy_url : option str) : option (list (str * str)) :=
  if py_truthy proxy_url
  then Some [(lit "http", default [] proxy_url); (lit "https", default [] proxy_url)]
  else None.

Section Notifications.

(** The network: [post] answers a request in a state of the world and
    leaves the world in a new state. *)
Variable world : Type.
Variable post : world -> request -> outcome * world.

(** [try: resp = requests.post(...); results[name] = resp.status_code
    except Exception as e: results[name_error] = str(e)]. *)
Definition attempt (name name_error : str) (req : request)
    (state : gmap (list N) entry * world) : gmap (list N) entry * world :=
  let '(results, w) := state in
  match post w req with
  | (Responded code, w') => (<[name := StatusCode code]> results, w')
  | (Failed message, w') => (<[name_error := ErrorText message]> results, w')
  end.

Definition send_md_to_notifications (md_text : str)
    (config : gmap (list N) (list N)) (proxy_url : option str) (w : world)
    : gmap (list N) entry * world :=
  let proxies := proxies_for proxy_url in
  let s0 : gmap (list N) entry * world := (∅, w) in
  let s1 :=
    if py_truthy (config !! cfg_feishu)
    then attempt res_feishu res_feishu_error (feishu_request md_text config proxies) s0
    else s0 in
  let s2 :=
    if py_truthy (config !! cfg_dingtalk)
    then attempt res_dingtalk res_dingtalk_error
           (dingtalk_request md_text config proxies) s1
    else s1 in
  let s3 :=
    if py_truthy (config !! cfg_wework)
    then attempt res_wework res_wework_error (wework_request md_text config proxies) s2
    else s2 in
  if py_truthy (config !! cfg_telegram_token) && py_truthy (config !! cfg_telegram_chat)
  then attempt res_telegram res_telegram_error
         (telegram_request md_text config proxies) s3
  else s3.

End Notifications.

(** The world as the list of the requests made so far, for a network that
    answers by [respond]. *)
Definition logging (respond : request -> outcome)
    (made : list request) (req : request) : outcome * list request :=
  (respond req, made ++ [req]).

(** ** Notions used to state the properties *)

(** The table block that a buffer of table lines is flushed to. *)
Definition table_of_lines (tlines : list str) : block :=
  let rows := List.map parse_row tlines in
  TableBlock (hd [] rows)
    (match skipn 1 rows with
     | [] => []
     | second :: more => if is_separator second then more else second :: more
     end).

(** A cell that is empty or made of dashes only. *)
Definition dash_cell (c : str) : Prop := c = [] \/ (c <> [] /\ Forall (eq 45) c).

(** A line that is not blank and shows none of the recognised patterns. *)
Definition plain_line (raw : str) : bool :=
  let stripped := Py.strip (Py.rstrip raw) in
  nonempty stripped
  && negb (startswith h3_prefix stripped)
  && negb (startswith h4_prefix stripped)
  && negb (startswith [pipe] stripped)
  && negb (str_eqb stripped rule_line)
  && negb (startswith list_marker stripped).

(** A space or a tab. *)
Definition blank_char (c : char) : Prop := c = 32 \/ c = 9.

(** *** Lines, runs of lines and their text *)

(** The line as the parser reads it: [raw.rstrip().strip()]. *)
Definition stripped_line (raw : str) : str := Py.strip (Py.rstrip raw).

Inductive kind :=
| KHeading3 | KHeading4 | KTable | KRule | KList | KPlain | KBlank.

Definition kind_eqb (a b : kind) : bool :=
  match a, b with
  | KHeading3, KHeading3 | KHeading4, KHeading4 | KTable, KTable
  | KRule, KRule | KList, KList | KPlain, KPlain | KBlank, KBlank => true
  | _, _ => false
  end.

(** The pattern a line shows, in the order the parser tests them. *)
Definition classify (raw : str) : kind :=
  let s := stripped_line raw in
  if startswith h3_prefix s then KHeading3
  else if startswith h4_prefix s then KHeading4
  else if startswith [pipe] s then KTable
  else if str_eqb s rule_line then KRule
  else if startswith list_marker s then KList
  else if nonempty s then KPlain
  else KBlank.

Definition is_blank (raw : str) : bool := negb (nonempty (stripped_line raw)).

(** The text of a list line: what follows the marker, without bold markers. *)
Definition item_of (raw : str) : str :=
  Py.strip (Py.replace bold_marker [] (skipn 2 (stripped_line raw))).

(** The texts a line carries once its markup is stripped: the heading text,
    the cells of a table line, the item of a list line, the text of a plain
    line without bold markers; a rule line and a blank line carry none. *)
Definition line_texts (raw : str) : list str :=
  match classify raw with
  | KHeading3 => [Py.strip (skipn 4 (stripped_line raw))]
  | KHeading4 => [Py.strip (skipn 5 (stripped_line raw))]
  | KTable => parse_row (stripped_line raw)
  | KRule => []
  | KList => [item_of raw]
  | KPlain => [Py.replace bold_marker [] (stripped_line raw)]
  | KBlank => []
  end.

(** The texts of a block, in reading order. *)
Definition block_texts (b : block) : list str :=
  match b with
  | Heading3 t => [t]
  | Heading4 t => [t]
  | ListBlock items => items
  | TableBlock header body_rows => header ++ List.concat body_rows
  | HorizontalRule => []
  | Paragraph t => [t]
  end.

(** A run is a non-empty sequence of consecutive lines that one block
    consumes: table lines, list lines, or one single line of another kind.
    [cur] is the run being read. *)
Definition run_is (k : kind) (cur : list str) : bool :=
  match cur with
  | [] => false
  | first :: _ => kind_eqb (classify first) k
  end.

Definition close_run (cur : list str) : list (list str) :=
  match cur with
  | [] => []
  | _ :: _ => [cur]
  end.

(** Reading one more line: the runs it closes and the run then open. *)
Definition advance (cur : list str) (raw : str) : list (list str) * list str :=
  match classify raw with
  | KTable => if run_is KTable cur then ([], cur ++ [raw]) else (close_run cur, [raw])
  | KList => if run_is KList cur then ([], cur ++ [raw]) else (close_run cur, [raw])
  | KBlank => (close_run cur, [])
  | _ => (close_run cur ++ [[raw]], [])
  end.

Fixpoint runs_from (cur : list str) (lines : list str) : list (list str) :=
  match lines with
  | [] => close_run cur
  | raw :: rest => fst (advance cur raw) ++ runs_from (snd (advance cur raw)) rest
  end.

(** The runs of a document: maximal sequences of table lines or of list
    lines, single lines otherwise; a blank line ends a run and is in none. *)
Definition runs (lines : list str) : list (list str) := runs_from [] lines.

(** The block that consumes a run. *)
Definition block_of_run (run : list str) : block :=
  match run with
  | [] => Paragraph []
  | first :: _ =>
      match classify first with
      | KHeading3 => Heading3 (Py.strip (skipn 4 (stripped_line first)))
      | KHeading4 => Heading4 (Py.strip (skipn 5 (stripped_line first)))
      | KTable => table_of_lines (List.map stripped_line run)
      | KRule => HorizontalRule
      | KList => ListBlock (List.map item_of run)
      | KPlain => Paragraph (Py.replace bold_marker [] (stripped_line first))
      | KBlank => Paragraph []
      end
  end.

(** The texts of the lines of a run, the second line of a table run left
    out when it is a separator row. *)
Definition run_texts (run : list str) : list str :=
  match run with
  | first :: second :: more =>
      if kind_eqb (classify first) KTable
         && is_separator (parse_row (stripped_line second))
      then line_texts first ++ flat_map line_texts more
      else flat_map line_texts run
  | _ => flat_map line_texts run
  end.

(** A run as the parser forms them: table lines only, or list lines only,
    or one line that is a heading, a rule or a plain line. *)
Definition well_formed_run (run : list str) : Prop :=
  match run with
  | [] => False
  | first :: more =>
      match classify first with
      | KTable => Forall (fun raw => classify raw = KTable) more
      | KList => Forall (fun raw => classify raw = KList) more
      | KBlank => False
      | _ => more = []
      end
  end.

(** The parser state while the run [cur] is open: the buffers hold the
    lines of the run, and at most one buffer is in use. *)
Inductive tracks : pstate -> list str -> Prop :=
| tracks_idle o :
    tracks (PState o false [] false []) []
| tracks_table o first more :
    classify first = KTable ->
    tracks (PState o false [] true (List.map stripped_line (first :: more)))
           (first :: more)
| tracks_list o first more :
    classify first = KList ->
    tracks (PState o true (List.map item_of (first :: more)) false [])
           (first :: more).

(** A line that is on its own in the block sequence: every kind of line but
    a table line and a list line. *)
Definition boundary_line (raw : str) : bool :=
  match classify raw with
  | KTable | KList => false
  | _ => true
  end.

(** No bold marker is left in the text of a paragraph or of a list item. *)
Definition no_bold_left (b : block) : Prop :=
  match b with
  | Paragraph t => contains bold_marker t = false
  | ListBlock items => Forall (fun item => contains bold_marker item = false) items
  | _ => True
  end.

(** A list has an item; a table has a header cell and no row without a cell. *)
Definition block_not_hollow (b : block) : Prop :=
  match b with
  | ListBlock items => items <> []
  | TableBlock header body_rows =>
      header <> [] /\ Forall (fun row => row <> []) body_rows
  | _ => True
  end.

(** The texts that the parser trims: heading texts, list items, table cells. *)
Definition trimmed_texts (b : block) : list str :=
  match b with
  | Heading3 t => [t]
  | Heading4 t => [t]
  | ListBlock items => items
  | TableBlock header body_rows => header ++ List.concat body_rows
  | _ => []
  end.

(** The header of the event table of the report. *)
Definition event_header : list str :=
  [hdr_event; hdr_date; hdr_view; hdr_effect; hdr_sector; hdr_advice].

(** Column [i] of a body row, as the script reads it: the trimmed text of
    the cell, empty when the row has no such cell. *)
Definition column (i : nat) (tr : list str) : str := Js.trim (nth i tr []).

(** The column a header name designates: the last column, from position [i]
    on, whose header is the name. *)
Fixpoint last_index_from (name : str) (i : nat) (headers : list str) : option nat :=
  match headers with
  | [] => None
  | h :: hs =>
      match last_index_from name (S i) hs with
      | Some j => Some j
      | None => if str_eqb h name then Some i else None
      end
  end.

Definition named_column (name : str) (headers : list str) : option nat :=
  last_index_from name 0 (List.map Js.trim headers).

(** The cell of a body row under the header [name]; empty when no column
    has that header. *)
Definition under (name : str) (headers tr : list str) : str :=
  match named_column name headers with
  | Some j => column j tr
  | None => []
  end.

(** A field of the row card: the first non-empty cell among those under the
    header names, in order, and then the cell at the fixed position; empty
    when all are empty. *)
Definition resolved (names : list str) (position : nat) (headers tr : list str) : str :=
  Js.first_truthy
    (List.map (fun name => Some (under name headers tr)) names
     ++ [Some (column position tr)]) [].

(** The card of a body row, field by field. *)
Definition row_card (headers tr : list str) : card :=
  EventCard
    (Js.or_else (resolved [hdr_event; hdr_event_name] 0 headers tr) hdr_event)
    (Js.or_else (resolved [hdr_date; hdr_date_window; hdr_time_window] 1 headers tr)
                dash)
    (Js.or_else (resolved [hdr_effect; hdr_market_effect] 3 headers tr) dash)
    (resolved [hdr_view; hdr_forward_view] 2 headers tr)
    (resolved [hdr_sector] 4 headers tr)
    (resolved [hdr_advice; hdr_advice_hedge] 5 headers tr).

Definition is_table (n : node) : bool :=
  match n with TABLE _ _ => true | _ => false end.

Definition is_h3 (n : node) : bool :=
  match n with H3 _ => true | _ => false end.


(** The first heading matching [pat], if any, is directly followed by a
    level-3 heading or by nothing. *)
Definition anchor_idle (pat : str) (kids : list node) : bool :=
  match find_h3 pat kids with
  | None => true
  | Some h =>
      match nth_error kids (S h) with
      | None => true
      | Some n => is_h3 n
      end
  end.




(** Where the section of an anchor ends: at a level-3 heading or at the end
    of the document. *)
Definition section_end (rest : list node) : bool :=
  match rest with
  | [] => true
  | n :: _ => is_h3 n
  end.

(** The cards of the market-review section [sect], read from left to right:
    a key paragraph takes the list or the paragraph right after it as its
    content. *)
Fixpoint review_cards (sect : list node) : list card :=
  match sect with
  | [] => []
  | P t :: rest =>
      match find_key (Js.trim t) with
      | Some key =>
          match rest with
          | UL items :: rest' => ReviewCard key (ListContent items) :: review_cards rest'
          | P t' :: rest' => ReviewCard key (ParaContent (Js.trim t')) :: review_cards rest'
          | _ => ReviewCard key NoContent :: review_cards rest
          end
      | None => review_cards rest
      end
  | _ :: rest => review_cards rest
  end.

(** The text of the first entry of a list, trimmed; empty for no entry. *)
Definition title_text (items : list str) : str :=
  match items with
  | li :: _ => Js.trim li
  | [] => []
  end.

(** The card of a priority item: its title text and the fields read so far. *)
Definition item_card (open : option (str * fields)) : list card :=
  match open with
  | Some (titleText, f) =>
      [priority_card (Fields (label_value lbl_title titleText) (f_reason f)
                             (f_urgency f) (f_confidence f) (f_suggest f))]
  | None => []
  end.

(** The cards of the priority section [sect], read from left to right:
    a title list opens an item, the paragraphs after it fill its fields,
    the next list closes it. *)
Fixpoint priority_cards (open : option (str * fields)) (sect : list node)
    : list card :=
  match sect with
  | [] => item_card open
  | UL items :: rest =>
      item_card open
      ++ (if startswith lbl_title (title_text items)
          then priority_cards (Some (title_text items, no_fields)) rest
          else priority_cards None rest)
  | P t :: rest =>
      match open with
      | Some (titleText, f) =>
          priority_cards (Some (titleText, paragraph_field f (Js.trim t))) rest
      | None => priority_cards None rest
      end
  | _ :: rest => priority_cards open rest
  end.

(** A card that shows no empty title and no empty metadata field. *)
Definition card_filled (c : card) : Prop :=
  match c with
  | PriorityCard title urgency confidence _ _ =>
      title <> [] /\ urgency <> [] /\ confidence <> []
  | SectionCard title _ => title <> []
  | EventCard evt date effect _ _ _ => evt <> [] /\ date <> [] /\ effect <> []
  | ReviewCard key _ => key <> []
  end.

Definition node_filled (n : node) : Prop :=
  match n with
  | CARD c => card_filled c
  | SECTION cards => Forall card_filled cards
  | _ => True
  end.

(** What every scan keeps of a document: its level-3 headings, in order;
    its length, which does not grow; and cards without empty fields. *)
Definition scan_keeps (kids result : list node) : Prop :=
  List.filter is_h3 result = List.filter is_h3 kids
  /\ (List.length result <= List.length kids)%nat
  /\ (Forall node_filled kids -> Forall node_filled result).

(** The value at [choices[0].message.content] of a decoded response, when
    the response has that shape. *)
Definition content_shape (data : json) : option json :=
  match data with
  | JObj items =>
      match dict_get items key_choices with
      | Some (JArr (JObj first :: _)) =>
          match dict_get first key_message with
          | Some (JObj message) => dict_get message key_content
          | _ => None
          end
      | _ => None
      end
  | _ => None
  end.

(** *** Priority items *)




(** A list, or a table, is being aggregated. *)
Definition list_open (st : pstate) : Prop :=
  in_list st = true /\ list_items st <> [] /\ in_table st = false.

Definition table_open (st : pstate) : Prop :=
  in_table st = true /\ table_lines st <> [] /\ list_items st = [].

(** *** Lines of the environment file *)

(** The text of a line before its first [=], and the text after it. *)
Fixpoint before_equals (s : str) : str :=
  match s with
  | [] => []
  | c :: t => if c =? equals_sign then [] else c :: before_equals t
  end.

Fixpoint after_equals (s : str) : str :=
  match s with
  | [] => []
  | c :: t => if c =? equals_sign then t else after_equals t
  end.

(** What a line assigns: nothing when it is blank, a comment or has no [=];
    otherwise a name and a value, both without surrounding white space. *)
Definition assignment (raw : str) : option (str * str) :=
  let line := Py.strip raw in
  if startswith [hash_sign] line then None
  else if existsb (N.eqb equals_sign) line
  then Some (Py.strip (before_equals line), Py.strip (after_equals line))
  else None.

(** The line assigns one of the two names of the key. *)
Definition assigns_key (raw : str) : bool :=
  match assignment raw with
  | Some (k, _) => includes candidates k
  | None => false
  end.

(** The value of the first line that assigns the key. *)
Definition file_key (lines : list str) : option str :=
  match find assigns_key lines with
  | Some raw => option_map snd (assignment raw)
  | None => None
  end.

(** What the environment file gives, when it can be read. *)
Definition file_value (file : env_file) : option str :=
  match file with
  | Readable text => file_key (Py.splitlines text)
  | _ => None
  end.

Definition env_name_mixed : str := Eval vm_compute in lit "deepseek_API_KEY".
Definition env_name_upper : str := Eval vm_compute in lit "DEEPSEEK_API_KEY".

(** The first value that is present and not empty. *)
Fixpoint first_usable (values : list (option str)) : Py.result str :=
  match values with
  | [] => Py.Raise Py.RuntimeError
  | Some (c :: v) :: _ => Py.Ok (c :: v)
  | _ :: rest => first_usable rest
  end.

(** *** The outcome of a notification channel *)

(** The channel was tried: [results] holds its status code and no error, or
    its error and no status code. *)
Definition reported (results : gmap (list N) entry) (name name_error : str) : Prop :=
  (exists code, results !! name = Some (StatusCode code) /\ results !! name_error = None)
  \/ (exists message,
        results !! name_error = Some (ErrorText message) /\ results !! name = None).

(** The channel was not tried: [results] says nothing about it. *)
Definition silent (results : gmap (list N) entry) (name name_error : str) : Prop :=
  results !! name = None /\ results !! name_error = None.

Definition channel_report (configured : bool) (results : gmap (list N) entry)
    (name name_error : str) : Prop :=
  if configured then reported results name name_error
  else silent results name name_error.

Definition result_names : list str :=
  [res_feishu; res_feishu_error; res_dingtalk; res_dingtalk_error;
   res_wework; res_wework_error; res_telegram; res_telegram_error].

(** A channel's request when the channel is configured. *)
Definition when (configured : bool) (req : request) : list request :=
  if configured then [req] else [].

(** * Properties *)

(** ** Stripping *)

Lemma lstrip_by_app_all f pre s :
  forallb f pre = true -> lstrip_by f (pre ++ s) = lstrip_by f s.
Proof.
  induction pre as [|c pre IH]; simpl; intros H; [reflexivity|].
  apply andb_true_iff in H as [Hc Hpre]. rewrite Hc. auto.
Qed.

Lemma rstrip_by_all f post :
  forallb f post = true -> rstrip_by f post = [].
Proof.
  induction post as [|c post IH]; simpl; intros H; [reflexivity|].
  apply andb_true_iff in H as [Hc Hpost]. rewrite (IH Hpost), Hc. reflexivity.
Qed.

Lemma rstrip_by_app_all f s post :
  forallb f post = true -> rstrip_by f (s ++ post) = rstrip_by f s.
Proof.
  intros H. induction s as [|c s IH]; simpl.
  - apply rstrip_by_all, H.
  - rewrite IH. reflexivity.
Qed.

Lemma lstrip_rstrip_comm f s :
  lstrip_by f (rstrip_by f s) = rstrip_by f (lstrip_by f s).
Proof.
  induction s as [|c t IH]; simpl; [reflexivity|].
  destruct (f c) eqn:Hc.
  - destruct (rstrip_by f t) as [|x r] eqn:E.
    + rewrite <- IH. reflexivity.
    + rewrite <- IH. simpl. rewrite Hc. reflexivity.
  - simpl. destruct (rstrip_by f t) as [|x r]; simpl; rewrite Hc; reflexivity.
Qed.

Lemma rstrip_by_idem f s : rstrip_by f (rstrip_by f s) = rstrip_by f s.
Proof.
  induction s as [|c t IH]; simpl; [reflexivity|].
  destruct (rstrip_by f t) as [|x r] eqn:E.
  - destruct (f c) eqn:Hc; simpl; [reflexivity|]. rewrite Hc. reflexivity.
  - change (rstrip_by f (c :: x :: r)) with
      (match rstrip_by f (x :: r) with [] => if f c then [] else [c] | t' => c :: t' end).
    rewrite IH. reflexivity.
Qed.

Lemma strip_rstrip s : Py.strip (Py.rstrip s) = Py.strip s.
Proof. unfold Py.strip, Py.rstrip. rewrite rstrip_by_idem. reflexivity. Qed.

Lemma strip_padded pre s post :
  forallb Py.isspace pre = true -> forallb Py.isspace post = true ->
  Py.strip (pre ++ s ++ post) = Py.strip s.
Proof.
  intros Hpre Hpost. unfold Py.strip, Py.lstrip, Py.rstrip.
  rewrite lstrip_rstrip_comm, (lstrip_by_app_all _ _ _ Hpre).
  rewrite <- lstrip_rstrip_comm, (rstrip_by_app_all _ _ _ Hpost).
  reflexivity.
Qed.

Lemma blank_chars_are_space l :
  Forall blank_char l -> forallb Py.isspace l = true.
Proof.
  induction 1 as [|c l [-> | ->] _ IH]; simpl; auto.
Qed.

(** ** The parser never raises *)

(** The state after [flush_table], which cannot raise: both subscripts are
    guarded by the emptiness tests before them. *)
Lemma flush_table_eq st :
  flush_table st =
  Py.Ok (PState
           (if in_table st && negb (Nat.eqb (List.length (table_lines st)) 0)
            then out st ++ [table_of_lines (table_lines st)] else out st)
           (in_list st) (list_items st) false []).
Proof.
  destruct st as [o il li it tl]. unfold flush_table, table_of_lines. simpl.
  destruct it; simpl; [|reflexivity].
  destruct tl as [|l1 [|l2 rest]]; reflexivity.
Qed.

Lemma step_depends_on_stripped st r1 r2 :
  Py.strip (Py.rstrip r1) = Py.strip (Py.rstrip r2) -> step st r1 = step st r2.
Proof. intros H. unfold step. cbv zeta. rewrite H. reflexivity. Qed.

Lemma step_ok st raw : exists st', step st raw = Py.Ok st'.
Proof.
  unfold step. cbv zeta.
  repeat match goal with
         | |- context [flush_table ?s] => rewrite (flush_table_eq s)
         | |- context [if ?b then _ else _] => destruct b
         end; simpl; eauto.
Qed.

(** [out] only grows. *)
Lemma flush_list_out st : exists more, out (flush_list st) = out st ++ more.
Proof.
  unfold flush_list.
  destruct (in_list st && negb (Nat.eqb (List.length (list_items st)) 0)); simpl.
  - eauto.
  - exists []. rewrite app_nil_r. reflexivity.
Qed.

Lemma flush_table_out st st' :
  flush_table st = Py.Ok st' -> exists more, out st' = out st ++ more.
Proof.
  rewrite flush_table_eq. intros [= <-]. simpl.
  destruct (in_table st && negb (Nat.eqb (List.length (table_lines st)) 0)).
  - eauto.
  - exists []. rewrite app_nil_r. reflexivity.
Qed.

Ltac out_grows :=
  simpl; repeat rewrite <- app_assoc;
  first [ eexists; reflexivity | exists []; rewrite app_nil_r; reflexivity ].

Lemma step_out st raw st' :
  step st raw = Py.Ok st' -> exists more, out st' = out st ++ more.
Proof.
  unfold step. cbv zeta.
  repeat match goal with
         | |- context [flush_table ?s] => rewrite (flush_table_eq s)
         end.
  unfold flush_list, emit. simpl.
  repeat match goal with
         | |- context [if ?b then _ else _] => destruct b; simpl
         end;
  intros [= <-]; out_grows.
Qed.

Lemma run_lines_app st l1 l2 :
  run_lines st (l1 ++ l2) = (do st' <- run_lines st l1; run_lines st' l2).
Proof.
  revert st. induction l1 as [|raw l1 IH]; intros st; simpl; [reflexivity|].
  destruct (step st raw) as [st1|e]; simpl; [apply IH | reflexivity].
Qed.

Lemma run_lines_ok lines : forall st, exists st', run_lines st lines = Py.Ok st'.
Proof.
  induction lines as [|raw lines IH]; intros st; simpl; [eauto|].
  destruct (step_ok st raw) as [st1 ->]. simpl. apply IH.
Qed.

Lemma run_lines_out lines : forall st st',
  run_lines st lines = Py.Ok st' -> exists more, out st' = out st ++ more.
Proof.
  induction lines as [|raw lines IH]; intros st st'; simpl.
  - intros [= <-]. out_grows.
  - destruct (step st raw) as [st1|e] eqn:E; simpl; [|discriminate].
    intros H. apply IH in H as [m2 ->]. apply step_out in E as [m1 ->].
    out_grows.
Qed.

Lemma parse_lines_ok lines : exists blocks, parse_lines lines = Py.Ok blocks.
Proof.
  unfold parse_lines. destruct (run_lines_ok lines init_state) as [st ->]. simpl.
  rewrite flush_table_eq. simpl. eauto.
Qed.

(** A plain line appends its paragraph, whatever was being aggregated. *)
Lemma step_plain st raw :
  plain_line raw = true ->
  exists st' before,
    step st raw = Py.Ok st' /\
    out st' = before ++ [Paragraph (Py.replace bold_marker [] (Py.strip (Py.rstrip raw)))].
Proof.
  unfold plain_line. cbv zeta. intros H.
  repeat (apply andb_true_iff in H as [H ?]).
  repeat match goal with
         | H : negb _ = true |- _ => apply negb_true_iff in H
         end.
  unfold step. cbv zeta.
  repeat match goal with
         | H : _ = false |- _ => rewrite H
         end.
  rewrite H.
  destruct (in_table st); [rewrite flush_table_eq|]; simpl; eauto.
Qed.

Lemma parse_lines_paragraph lines raw blocks :
  parse_lines lines = Py.Ok blocks -> In raw lines -> plain_line raw = true ->
  In (Paragraph (Py.replace bold_marker [] (Py.strip (Py.rstrip raw)))) blocks.
Proof.
  intros Hparse Hin Hplain.
  apply in_split in Hin as (l1 & l2 & ->).
  unfold parse_lines in Hparse. rewrite run_lines_app in Hparse.
  destruct (run_lines_ok l1 init_state) as [st1 E1]. rewrite E1 in Hparse.
  simpl in Hparse.
  destruct (step_plain st1 raw Hplain) as (st2 & before & E2 & Hout).
  rewrite E2 in Hparse. simpl in Hparse.
  destruct (run_lines st2 l2) as [st3|e] eqn:E3; simpl in Hparse; [|discriminate].
  apply run_lines_out in E3 as [m3 H3].
  destruct (flush_list_out st3) as [m4 H4].
  destruct (flush_table (flush_list st3)) as [st5|e] eqn:E5; simpl in Hparse;
    [|discriminate].
  apply flush_table_out in E5 as [m5 H5].
  injection Hparse as <-.
  rewrite H5, H4, H3, Hout.
  rewrite !in_app_iff. simpl. tauto.
Qed.

(** C1.  For every input text the parser and renderer return a result, they
    never raise; and every line of the input that is not blank and shows
    none of the recognised patterns (heading, table row, horizontal rule,
    list marker) is emitted as a paragraph. *)
Theorem md_to_html_never_raises (md : str) :
  exists blocks,
    md_blocks md = Py.Ok blocks /\
    md_to_html md
      = Py.Ok (Py.join newline (List.concat (List.map render_block blocks))) /\
    forall raw, In raw (Py.splitlines md) -> plain_line raw = true ->
      In (Paragraph (Py.replace bold_marker [] (Py.strip (Py.rstrip raw)))) blocks.
Proof.
  destruct (parse_lines_ok (Py.splitlines md)) as [blocks E].
  exists blocks. unfold md_to_html, md_blocks. rewrite E. simpl.
  repeat split; auto.
  intros raw Hin Hplain. eapply parse_lines_paragraph; eauto.
Qed.

(** C10.  Classification works on the trimmed line: spaces and tabs around
    a line change nothing of what the parser does with it. *)
Theorem indentation_does_not_change_classification st raw pre post :
  Forall blank_char pre -> Forall blank_char post ->
  step st (pre ++ raw ++ post) = step st raw.
Proof.
  intros Hpre Hpost. apply step_depends_on_stripped.
  rewrite !strip_rstrip.
  apply strip_padded; apply blank_chars_are_space; assumption.
Qed.

Lemma md_to_html_never_raises_witness :
  exists blocks,
    md_blocks (lit "plain text") = Py.Ok blocks /\
    In (Paragraph (lit "plain text")) blocks.
Proof.
  destruct (md_to_html_never_raises (lit "plain text")) as (blocks & E & _ & Hp).
  exists blocks. split; [exact E|].
  exact (Hp (lit "plain text") (or_introl eq_refl) eq_refl).
Defined.

Lemma indentation_does_not_change_classification_witness :
  step init_state ([32; 9] ++ lit "- item" ++ [32]) = step init_state (lit "- item").
Proof.
  apply indentation_does_not_change_classification;
    repeat (constructor; [first [left; reflexivity | right; reflexivity]|]);
    constructor.
Defined.

(** ** Blank lines *)

(** One turn of the loop, by the pattern the line shows. *)
Lemma step_classified st raw :
  step st raw =
  match classify raw with
  | KHeading3 =>
      do st1 <- flush_table (flush_list st);
      Py.Ok (emit st1 (Heading3 (Py.strip (skipn 4 (stripped_line raw)))))
  | KHeading4 =>
      do st1 <- flush_table (flush_list st);
      Py.Ok (emit st1 (Heading4 (Py.strip (skipn 5 (stripped_line raw)))))
  | KTable =>
      Py.Ok (PState (out (flush_list st)) false [] true
               (table_lines st ++ [stripped_line raw]))
  | KRule =>
      do st1 <- (if in_table st then flush_table st else Py.Ok st);
      Py.Ok (emit (flush_list st1) HorizontalRule)
  | KList =>
      do st1 <- (if in_table st then flush_table st else Py.Ok st);
      Py.Ok (PState (out st1) true (list_items st1 ++ [item_of raw])
               (in_table st1) (table_lines st1))
  | KPlain =>
      do st1 <- (if in_table st then flush_table st else Py.Ok st);
      Py.Ok (emit (flush_list st1)
               (Paragraph (Py.replace bold_marker [] (stripped_line raw))))
  | KBlank =>
      do st1 <- (if in_table st then flush_table st else Py.Ok st);
      Py.Ok (flush_list st1)
  end.
Proof.
  unfold step, classify, item_of, stripped_line. cbv zeta.
  destruct (startswith h3_prefix (Py.strip (Py.rstrip raw))); [reflexivity|].
  destruct (startswith h4_prefix (Py.strip (Py.rstrip raw))); [reflexivity|].
  destruct (startswith [pipe] (Py.strip (Py.rstrip raw))).
  { unfold flush_list. destruct st; simpl.
    destruct (in_list0 && negb (Nat.eqb (List.length list_items0) 0)); reflexivity. }
  destruct (str_eqb (Py.strip (Py.rstrip raw)) rule_line); [reflexivity|].
  destruct (startswith list_marker (Py.strip (Py.rstrip raw))); [reflexivity|].
  destruct (nonempty (Py.strip (Py.rstrip raw))); reflexivity.
Qed.

(** C2, as stated, fails: the blank line between two list lines closes the
    first list, so the parser emits two lists of one item each. *)
Lemma blank_line_splits_list_counterexample :
  md_blocks (lit "- a" ++ [10; 10] ++ lit "- b")
    = Py.Ok [ListBlock [lit "a"]; ListBlock [lit "b"]]
  /\ md_blocks (lit "- a" ++ [10; 10] ++ lit "- b")
    <> Py.Ok [ListBlock [lit "a"; lit "b"]].
Proof. split; [vm_compute; reflexivity | vm_compute; discriminate]. Qed.

(** C2, amended.  A blank line closes an in-progress list or table: the
    lines "- a", blank, "- b" give two list blocks of one item each; in any
    state a blank line emits the open list, or the open table, and leaves
    both buffers closed.  More generally an open list is closed, and
    emitted, by every line that is not a list line, and an open table by
    every line that is not a table line; a line of the aggregated kind adds
    to the buffer and emits nothing; and at the end of the input the open
    list, or the open table, is emitted as the last block. *)
Theorem blank_line_closes_aggregation :
  parse_lines [lit "- a"; []; lit "- b"]
    = Py.Ok [ListBlock [lit "a"]; ListBlock [lit "b"]]
  /\ (forall st raw,
      Py.strip (Py.rstrip raw) = [] ->
      exists st',
        step st raw = Py.Ok st' /\
        in_list st' = false /\ list_items st' = [] /\ in_table st' = false /\
        (in_table st = false -> in_list st = true -> list_items st <> [] ->
         out st' = out st ++ [ListBlock (list_items st)]) /\
        (in_table st = true -> table_lines st <> [] -> list_items st = [] ->
         out st' = out st ++ [table_of_lines (table_lines st)]
         /\ table_lines st' = []))
  /\ (forall st raw,
      list_open st -> classify raw <> KList ->
      exists st' more,
        step st raw = Py.Ok st' /\ in_list st' = false /\ list_items st' = [] /\
        out st' = out st ++ ListBlock (list_items st) :: more)
  /\ (forall st raw,
      table_open st -> classify raw <> KTable ->
      exists st' more,
        step st raw = Py.Ok st' /\ in_table st' = false /\ table_lines st' = [] /\
        out st' = out st ++ table_of_lines (table_lines st) :: more)
  /\ (forall st raw,
      list_open st -> classify raw = KList ->
      exists st',
        step st raw = Py.Ok st' /\ in_list st' = true /\ out st' = out st /\
        list_items st' = list_items st ++ [item_of raw])
  /\ (forall st raw,
      table_open st -> classify raw = KTable ->
      exists st',
        step st raw = Py.Ok st' /\ in_table st' = true /\ out st' = out st /\
        table_lines st' = table_lines st ++ [stripped_line raw])
  /\ (forall lines st,
      run_lines init_state lines = Py.Ok st -> list_open st ->
      parse_lines lines = Py.Ok (out st ++ [ListBlock (list_items st)]))
  /\ (forall lines st,
      run_lines init_state lines = Py.Ok st -> table_open st ->
      parse_lines lines = Py.Ok (out st ++ [table_of_lines (table_lines st)])).
Proof.
  split; [vm_compute; reflexivity|].
  split.
  { intros st raw Hblank. unfold step. cbv zeta. rewrite Hblank. simpl.
    destruct st as [o il li it tl]. simpl.
    destruct it; [rewrite flush_table_eq|]; unfold flush_list; simpl;
      destruct (il && negb (Nat.eqb (List.length li) 0)) eqn:Eb; simpl;
      (eexists; split; [reflexivity|]; simpl;
       split; [reflexivity|]; split; [reflexivity|]; split; [reflexivity|]).
    - split; [intros H; discriminate|].
      intros _ _ ->. rewrite andb_false_r in Eb. discriminate.
    - split; [intros H; discriminate|].
      intros _ Htl _. destruct tl; [congruence|]. split; reflexivity.
    - split; [|intros H; discriminate]. reflexivity.
    - split; [|intros H; discriminate].
      intros _ -> Hli. destruct li; [congruence|]. discriminate. }
  split.
  { intros [o il li it tl] raw (Hil & Hli & Hit) Hk. cbn in Hil, Hli, Hit. subst il it.
    destruct li as [|i li]; [congruence|].
    rewrite step_classified.
    destruct (classify raw); try congruence;
      cbn [in_table]; rewrite ?flush_table_eq; unfold flush_list, emit; cbn;
      do 2 eexists; (split; [reflexivity|]); cbn;
      (split; [reflexivity|]); (split; [reflexivity|]);
      rewrite <- ?app_assoc; reflexivity. }
  split.
  { intros [o il li it tl] raw (Hit & Htl & Hli) Hk. cbn in Hit, Htl, Hli. subst it li.
    destruct tl as [|t tl]; [congruence|].
    rewrite step_classified.
    destruct (classify raw); try congruence;
      cbn [in_table]; rewrite ?flush_table_eq; unfold flush_list, emit; cbn;
      rewrite ?andb_false_r; cbn;
      do 2 eexists; (split; [reflexivity|]); cbn;
      (split; [reflexivity|]); (split; [reflexivity|]);
      rewrite <- ?app_assoc; reflexivity. }
  split.
  { intros [o il li it tl] raw (Hil & Hli & Hit) Hk. cbn in Hil, Hli, Hit. subst il it.
    rewrite step_classified, Hk. cbn. eexists. repeat split. }
  split.
  { intros [o il li it tl] raw (Hit & Htl & Hli) Hk. cbn in Hit, Htl, Hli. subst it li.
    rewrite step_classified, Hk. unfold flush_list. cbn.
    rewrite andb_false_r. cbn. eexists. repeat split. }
  split.
  { intros lines [o il li it tl] Hrun (Hil & Hli & Hit). cbn in Hil, Hli, Hit. subst il it.
    unfold parse_lines. rewrite Hrun. cbn [Py.bind].
    rewrite flush_table_eq. unfold flush_list, emit. cbn.
    destruct li; [congruence|]. reflexivity. }
  { intros lines [o il li it tl] Hrun (Hit & Htl & Hli). cbn in Hit, Htl, Hli. subst it li.
    unfold parse_lines. rewrite Hrun. cbn [Py.bind].
    rewrite flush_table_eq. unfold flush_list, emit. cbn.
    rewrite andb_false_r. cbn.
    destruct tl; [congruence|]. reflexivity. }
Qed.

Lemma blank_line_closes_aggregation_witness :
  exists st',
    step (PState [] true [lit "a"] false []) [32] = Py.Ok st' /\
    out st' = [ListBlock [lit "a"]] /\ in_list st' = false.
Proof.
  destruct (proj1 (proj2 blank_line_closes_aggregation)
              (PState [] true [lit "a"] false []) [32] eq_refl)
    as (st' & E & Hil & _ & _ & Hlist & _).
  exists st'. split; [exact E|]. split; [|exact Hil].
  apply Hlist; [reflexivity | reflexivity | discriminate].
Defined.

(** ** Table construction *)

Lemma forallb_dashes c : forallb (N.eqb 45) c = true <-> Forall (eq 45) c.
Proof.
  induction c as [|x c IH]; cbn [forallb].
  - split; auto.
  - rewrite andb_true_iff, IH, N.eqb_eq. split.
    + intros [-> H]. constructor; auto.
    + intros H. inversion H; subst. auto.
Qed.

Lemma is_separator_spec row : is_separator row = true <-> Forall dash_cell row.
Proof.
  unfold is_separator. induction row as [|c row IH]; cbn [forallb].
  - split; auto.
  - rewrite andb_true_iff, IH. clear IH.
    assert (Hc : Py.fullmatch_dashes c || str_eqb c [] = true <-> dash_cell c).
    { unfold dash_cell, Py.fullmatch_dashes. destruct c as [|x c].
      - simpl. split; auto.
      - cbn [nonempty str_eqb andb]. rewrite orb_false_r, forallb_dashes. split.
        + intros H. right. split; [discriminate | exact H].
        + intros [H | [_ H]]; [discriminate | exact H]. }
    rewrite Hc. split.
    + intros [H1 H2]. constructor; auto.
    + intros H. inversion H; subst. auto.
Qed.

(** C3.  The first aggregated row is the header; the second row is left out
    of the body exactly when each of its cells is empty or made of dashes
    only, and otherwise every row after the header is a body row. *)
Theorem table_separator_row_dropped st l1 l2 rest :
  in_table st = true -> table_lines st = l1 :: l2 :: rest ->
  exists body,
    flush_table st
      = Py.Ok (PState (out st ++ [TableBlock (parse_row l1) body])
                 (in_list st) (list_items st) false [])
    /\ (body = List.map parse_row rest <-> Forall dash_cell (parse_row l2))
    /\ (~ Forall dash_cell (parse_row l2) -> body = List.map parse_row (l2 :: rest)).
Proof.
  intros Hin Hlines. rewrite flush_table_eq, Hin, Hlines. simpl.
  unfold table_of_lines. simpl.
  destruct (is_separator (parse_row l2)) eqn:E.
  - apply is_separator_spec in E.
    eexists. split; [reflexivity|]. split; [tauto|]. intros H. contradiction.
  - assert (Hn : ~ Forall dash_cell (parse_row l2)).
    { intros H. apply is_separator_spec in H. congruence. }
    eexists. split; [reflexivity|]. split; [|reflexivity].
    split; [|tauto]. intros H. apply (f_equal (@List.length _)) in H.
    simpl in H. lia.
Qed.

Lemma table_separator_row_dropped_witness :
  exists body,
    flush_table (PState [] false [] true [lit "|a|b|"; lit "|---|--|"; lit "|1|2|"])
      = Py.Ok (PState [TableBlock [lit "a"; lit "b"] body] false [] false [])
    /\ body = [[lit "1"; lit "2"]].
Proof.
  destruct (table_separator_row_dropped
              (PState [] false [] true [lit "|a|b|"; lit "|---|--|"; lit "|1|2|"])
              (lit "|a|b|") (lit "|---|--|") [lit "|1|2|"] eq_refl eq_refl)
    as (body & E & [_ Hdrop] & _).
  exists body. split; [exact E|].
  apply Hdrop. vm_compute.
  repeat (constructor; [right; split; [discriminate | repeat constructor]|]).
  constructor.
Defined.

(** ** The response of the chat-completion endpoint *)

(** C9, as stated, fails: the content is returned stripped, not as it is;
    and a content that is not a string is not returned at all. *)
Lemma content_is_stripped_counterexample :
  let reply s := JObj [(key_choices,
                   JArr [JObj [(key_message, JObj [(key_content, s)])]])] in
  call_deepseek (fun _ => lit "{}") (Response 200 (Some (reply (JStr (lit " hi ")))))
    = Py.Ok (lit "hi")
  /\ call_deepseek (fun _ => lit "{}") (Response 200 (Some (reply (JStr (lit " hi ")))))
    <> Py.Ok (lit " hi ")
  /\ call_deepseek (fun _ => lit "{}") (Response 200 (Some (reply JNull)))
    = Py.Ok (lit "{}").
Proof.
  cbv zeta. split; [vm_compute; reflexivity|].
  split; [vm_compute; discriminate | vm_compute; reflexivity].
Qed.

(** C9, amended.  For a response with status 200 and a JSON body,
    [call_deepseek] does not raise: when the body has the
    [choices[0].message.content] shape with a string content it returns that
    string with surrounding white space stripped; in every other case,
    a content that is not a string included, it returns the JSON
    serialisation of the decoded body. *)
Theorem call_deepseek_content_or_raw_json (dumps : json -> str) (data : json) :
  call_deepseek dumps (Response 200 (Some data)) =
  match content_shape data with
  | Some (JStr s) => Py.Ok (Py.strip s)
  | _ => Py.Ok (dumps data)
  end.
Proof.
  unfold call_deepseek, read_content, content_shape. simpl.
  destruct data as [| | | |elems|items]; simpl; try reflexivity.
  destruct (dict_get items key_choices) as [choices|]; simpl; [|reflexivity].
  destruct choices as [| | |s|elems|o]; simpl; try reflexivity.
  - destruct s; reflexivity.
  - destruct elems as [|first more]; simpl; [reflexivity|].
    destruct first as [| | | | |fitems]; simpl; try reflexivity.
    destruct (dict_get fitems key_message) as [message|]; simpl; [|reflexivity].
    destruct message as [| | | | |mitems]; simpl; try reflexivity.
    destruct (dict_get mitems key_content) as [content|]; simpl; [|reflexivity].
    destruct content; reflexivity.
Qed.

(** ** The thematic sections *)

Lemma str_eqb_eq a b : str_eqb a b = true <-> a = b.
Proof.
  revert b. induction a as [|x a IH]; intros [|y b]; simpl;
    try (split; [discriminate | congruence]); [tauto|].
  rewrite andb_true_iff, N.eqb_eq, IH. split; [intros [-> ->] | intros [= -> ->]]; auto.
Qed.

Lemma includes_In l s : includes l s = true <-> In s l.
Proof.
  unfold includes. rewrite existsb_exists. split.
  - intros (x & Hin & Heq). apply str_eqb_eq in Heq. subst. exact Hin.
  - intros Hin. exists s. split; [exact Hin | apply str_eqb_eq; reflexivity].
Qed.

Lemma thematic_scan_app_bounded n : forall pre, (List.length pre <= n)%nat ->
  forall t rest,
  thematic_scan (pre ++ P t :: rest) = thematic_scan pre ++ thematic_scan (P t :: rest).
Proof.
  induction n as [|n IH]; intros pre Hlen t rest.
  - destruct pre; [reflexivity | simpl in Hlen; lia].
  - destruct pre as [|x pre]; [reflexivity|].
    simpl in Hlen.
    destruct x; try (cbn [app thematic_scan]; rewrite IH by lia; reflexivity).
    cbn [app thematic_scan].
    destruct (includes cardSectionTitles (Js.trim text)).
    + destruct pre as [|y pre].
      * reflexivity.
      * simpl in Hlen.
        destruct y; cbn [app];
          try (rewrite IH by lia; reflexivity);
          match goal with
          | |- context [thematic_scan (?y :: pre ++ P t :: rest)] =>
              pose proof (IH (y :: pre) ltac:(simpl; lia) t rest) as E;
              cbn [app] in E; rewrite E; reflexivity
          end.
    + rewrite IH by lia. reflexivity.
Qed.

Lemma thematic_scan_app pre t rest :
  thematic_scan (pre ++ P t :: rest) = thematic_scan pre ++ thematic_scan (P t :: rest).
Proof. apply (thematic_scan_app_bounded (List.length pre)). lia. Qed.

(** C6.  In the thematic-section scan, a paragraph whose trimmed text is one
    of the nine labels and whose next sibling is a list is replaced,
    together with the list, by one card: its title is the label without the
    final full-width colon, its body the list with its items as they were. *)
Theorem thematic_label_and_list_become_card pre t items rest :
  includes cardSectionTitles (Js.trim t) = true ->
  exists title,
    title ++ [colon] = Js.trim t
    /\ thematic_scan (pre ++ P t :: UL items :: rest)
       = thematic_scan pre ++ CARD (SectionCard title items) :: thematic_scan rest.
Proof.
  intros Hlabel. exists (drop_final_colon (Js.trim t)). split.
  - apply includes_In in Hlabel. simpl in Hlabel.
    repeat destruct Hlabel as [<- | Hlabel]; try reflexivity. contradiction.
  - rewrite thematic_scan_app. cbn [thematic_scan]. rewrite Hlabel. reflexivity.
Qed.

Lemma thematic_label_and_list_become_card_witness :
  exists title,
    title ++ [colon] = lit "主要风险："
    /\ thematic_scan [H4 (lit "风险"); P (lit " 主要风险： "); UL [lit "汇率"; lit "流动性"]; HR]
       = [H4 (lit "风险"); CARD (SectionCard title [lit "汇率"; lit "流动性"]); HR].
Proof.
  exact (thematic_label_and_list_become_card
           [H4 (lit "风险")] (lit " 主要风险： ") [lit "汇率"; lit "流动性"] [HR] eq_refl).
Defined.

(** ** The event table *)

Lemma nth_error_column i tr :
  Js.first_truthy [nth_error (List.map Js.trim tr) i] [] = column i tr.
Proof.
  unfold column. revert i. induction tr as [|c tr IH]; intros [|i]; simpl; auto.
  - destruct (Js.trim c); reflexivity.
  - apply IH.
Qed.

Lemma first_truthy_cell pre i tr d :
  Js.first_truthy (pre ++ [nth_error (List.map Js.trim tr) i]) d
  = Js.first_truthy (pre ++ [Some (column i tr)]) d.
Proof.
  induction pre as [|[[|]|] pre IH]; simpl; auto.
  rewrite <- nth_error_column. simpl.
  destruct (nth_error (List.map Js.trim tr) i) as [[|]|]; reflexivity.
Qed.

Lemma first_truthy_cell0 i tr d :
  Js.first_truthy [nth_error (List.map Js.trim tr) i] d
  = Js.first_truthy [Some (column i tr)] d.
Proof. exact (first_truthy_cell [] i tr d). Qed.

Lemma first_truthy_cell1 a i tr d :
  Js.first_truthy [a; nth_error (List.map Js.trim tr) i] d
  = Js.first_truthy [a; Some (column i tr)] d.
Proof. exact (first_truthy_cell [a] i tr d). Qed.

Lemma first_truthy_cell2 a b i tr d :
  Js.first_truthy [a; b; nth_error (List.map Js.trim tr) i] d
  = Js.first_truthy [a; b; Some (column i tr)] d.
Proof. exact (first_truthy_cell [a; b] i tr d). Qed.

Lemma first_truthy_cell3 a b c i tr d :
  Js.first_truthy [a; b; c; nth_error (List.map Js.trim tr) i] d
  = Js.first_truthy [a; b; c; Some (column i tr)] d.
Proof. exact (first_truthy_cell [a; b; c] i tr d). Qed.

(** A header name that no column carries is not a key of the map. *)
Lemma header_map_absent key headers cells : forall m i,
  ~ In key headers -> header_map m i headers cells !! key = m !! key.
Proof.
  induction headers as [|h hs IH]; intros m i Hnot; simpl; [reflexivity|].
  rewrite IH by (intros H; apply Hnot; right; exact H).
  apply lookup_insert_ne. intros ->. apply Hnot. left. reflexivity.
Qed.

Ltac lookup_key :=
  repeat first
    [ rewrite lookup_insert_eq
    | rewrite lookup_insert_ne by (vm_compute; discriminate)
    | rewrite lookup_empty ].

Ltac resolve_columns tr :=
  rewrite ?nth_error_column;
  rewrite ?first_truthy_cell0, ?first_truthy_cell1, ?first_truthy_cell2,
    ?first_truthy_cell3;
  unfold Js.or_else;
  generalize (column 0 tr) (column 1 tr) (column 2 tr)
             (column 3 tr) (column 4 tr) (column 5 tr);
  intros c0 c1 c2 c3 c4 c5;
  destruct c0, c1, c2, c3, c4, c5; reflexivity.

(** The row card under the header of the report. *)
Lemma event_card_of_event_header tr :
  event_card (List.map Js.trim event_header) (List.map Js.trim tr)
  = EventCard (Js.or_else (column 0 tr) hdr_event)
              (Js.or_else (column 1 tr) dash) (Js.or_else (column 3 tr) dash)
              (column 2 tr) (column 4 tr) (column 5 tr).
Proof.
  change (List.map Js.trim event_header) with event_header.
  unfold event_card, event_header. cbn [header_map]. lookup_key.
  resolve_columns tr.
Qed.

Lemma event_table_scan_first pre headers rows rest :
  existsb is_table pre = false ->
  event_table_scan (pre ++ TABLE headers rows :: rest)
  = pre ++ SECTION (table_cards headers rows) :: rest.
Proof.
  induction pre as [|n pre IH]; simpl; intros H; [reflexivity|].
  apply orb_false_iff in H as [Hn Hpre]. rewrite (IH Hpre).
  destruct n; try reflexivity. discriminate.
Qed.

(** C7, as stated, fails: when column 0 of the row is empty the title of
    the card is the placeholder, not the column. *)
Lemma event_card_title_placeholder_counterexample :
  let tr := [[]; lit "11-12"; lit "偏多"; lit "利好"; lit "券商"; lit "持有"] in
  event_table_scan [TABLE event_header [tr]]
    = [SECTION [EventCard (lit "事件") (lit "11-12") (lit "利好")
                          (lit "偏多") (lit "券商") (lit "持有")]]
  /\ lit "事件" <> column 0 tr.
Proof. cbv zeta. split; [vm_compute; reflexivity | vm_compute; discriminate]. Qed.

Lemma first_truthy_nth (cells : list str) i :
  Js.first_truthy [nth_error cells i] [] = nth i cells [].
Proof.
  revert i. induction cells as [|c cells IH]; intros [|i]; cbn; auto.
  - destruct c; reflexivity.
  - apply IH.
Qed.

Lemma header_map_lookup key headers cells : forall m i,
  header_map m i headers cells !! key
  = match last_index_from key i headers with
    | Some j => Some (nth j cells [])
    | None => m !! key
    end.
Proof.
  induction headers as [|h hs IH]; intros m i; cbn [header_map last_index_from];
    [reflexivity|].
  rewrite IH. destruct (last_index_from key (S i) hs); [reflexivity|].
  destruct (str_eqb h key) eqn:E.
  - apply str_eqb_eq in E. subst h. rewrite lookup_insert_eq, first_truthy_nth.
    reflexivity.
  - apply lookup_insert_ne. intros ->.
    assert (H : str_eqb key key = true) by (apply str_eqb_eq; reflexivity).
    congruence.
Qed.

Lemma nth_trimmed j tr : nth j (List.map Js.trim tr) [] = column j tr.
Proof.
  unfold column. exact (map_nth Js.trim tr [] j).
Qed.

Lemma header_map_under key headers tr :
  Js.first_truthy
    [header_map ∅ 0 (List.map Js.trim headers) (List.map Js.trim tr) !! key] []
  = under key headers tr.
Proof.
  rewrite header_map_lookup, lookup_empty. unfold under, named_column.
  destruct (last_index_from key 0 (List.map Js.trim headers)); [|reflexivity].
  rewrite nth_trimmed. cbn. destruct (column n tr); reflexivity.
Qed.

Lemma first_truthy_head x rest d :
  Js.first_truthy (x :: rest) d
  = Js.first_truthy (Some (Js.first_truthy [x] []) :: rest) d.
Proof. destruct x as [[|c v]|]; reflexivity. Qed.

Lemma event_card_resolved headers tr :
  event_card (List.map Js.trim headers) (List.map Js.trim tr)
  = row_card headers tr.
Proof.
  unfold event_card, row_card, resolved. cbv zeta. cbn [List.map app].
  set (map := header_map ∅ 0 (List.map Js.trim headers) (List.map Js.trim tr)).
  pose proof (fun key => header_map_under key headers tr) as Hu. fold map in Hu.
  assert (H2 : forall a p d,
             Js.first_truthy [map !! a; nth_error (List.map Js.trim tr) p] d
             = Js.first_truthy [Some (under a headers tr); Some (column p tr)] d).
  { intros a p d. rewrite first_truthy_head, Hu.
    destruct (under a headers tr); [|reflexivity].
    exact (first_truthy_cell0 p tr d). }
  assert (H3 : forall a b p d,
             Js.first_truthy [map !! a; map !! b; nth_error (List.map Js.trim tr) p] d
             = Js.first_truthy [Some (under a headers tr); Some (under b headers tr);
                                Some (column p tr)] d).
  { intros a b p d. rewrite first_truthy_head, Hu.
    destruct (under a headers tr); [|reflexivity].
    exact (H2 b p d). }
  assert (H4 : forall a b c p d,
             Js.first_truthy [map !! a; map !! b; map !! c;
                              nth_error (List.map Js.trim tr) p] d
             = Js.first_truthy [Some (under a headers tr); Some (under b headers tr);
                                Some (under c headers tr); Some (column p tr)] d).
  { intros a b c p d. rewrite first_truthy_head, Hu.
    destruct (under a headers tr); [|reflexivity].
    exact (H3 b c p d). }
  rewrite !H2, !H3, !H4.
  assert (He : forall l, Js.first_truthy l hdr_event
                         = Js.or_else (Js.first_truthy l []) hdr_event).
  { induction l as [|[[|]|] l IH]; cbn; auto. }
  rewrite He. reflexivity.
Qed.

(** C7, amended.  The scan acts on the first table only.  Under the header
    of the report a body row gives one card: its title is column 0 when that
    is not empty and the placeholder "事件" otherwise, its date and impact
    are columns 1 and 3 when not empty and "-" otherwise.  Each field is
    resolved by header name first, synonyms in order, and by position when
    no header matches: the synonym header gives the same card, and headers
    that carry none of the names give the card of the positions.  For any
    header row and any rows, each field of a card is the first non-empty
    cell among those under the field's header names, in their order,
    wherever those columns stand, and then the cell at the field's fixed
    position; so the title is the cell under "事件" when that is not empty,
    and the cell under "事件名称" when the former is empty or absent. *)
Theorem event_table_row_card :
  (forall pre tr rest,
     existsb is_table pre = false ->
     event_table_scan (pre ++ TABLE event_header [tr] :: rest)
     = pre ++ SECTION [EventCard (Js.or_else (column 0 tr) hdr_event)
                         (Js.or_else (column 1 tr) dash)
                         (Js.or_else (column 3 tr) dash)
                         (column 2 tr) (column 4 tr) (column 5 tr)] :: rest)
  /\ (forall tr,
        event_card [hdr_event_name; hdr_time_window; hdr_forward_view;
                    hdr_market_effect; hdr_sector; hdr_advice_hedge]
                   (List.map Js.trim tr)
        = event_card event_header (List.map Js.trim tr))
  /\ (forall headers tr,
        (forall key, In key [hdr_event; hdr_event_name; hdr_date; hdr_date_window;
                             hdr_time_window; hdr_view; hdr_forward_view;
                             hdr_effect; hdr_market_effect; hdr_sector;
                             hdr_advice; hdr_advice_hedge] -> ~ In key headers) ->
        event_card headers (List.map Js.trim tr)
        = EventCard (Js.or_else (column 0 tr) hdr_event)
                    (Js.or_else (column 1 tr) dash) (Js.or_else (column 3 tr) dash)
                    (column 2 tr) (column 4 tr) (column 5 tr))
  /\ (forall pre headers rows rest,
        existsb is_table pre = false ->
        event_table_scan (pre ++ TABLE headers rows :: rest)
        = pre ++ SECTION (List.map (row_card headers) rows) :: rest)
  /\ (forall headers tr i,
        named_column hdr_event headers = Some i -> column i tr <> [] ->
        exists date effect view sector adv,
          event_card (List.map Js.trim headers) (List.map Js.trim tr)
          = EventCard (column i tr) date effect view sector adv)
  /\ (forall headers tr i,
        under hdr_event headers tr = [] ->
        named_column hdr_event_name headers = Some i -> column i tr <> [] ->
        exists date effect view sector adv,
          event_card (List.map Js.trim headers) (List.map Js.trim tr)
          = EventCard (column i tr) date effect view sector adv).
Proof.
  split; [|split; [|split; [|split; [|split]]]].
  - intros pre tr rest Hpre. rewrite (event_table_scan_first _ _ _ _ Hpre).
    unfold table_cards. cbn [List.map]. rewrite event_card_of_event_header.
    reflexivity.
  - intros tr.
    change event_header with (List.map Js.trim event_header).
    rewrite event_card_of_event_header.
    unfold event_card. cbn [header_map]. lookup_key. resolve_columns tr.
  - intros headers tr Habsent. unfold event_card.
    rewrite !header_map_absent by (apply Habsent; simpl; tauto).
    rewrite !lookup_empty. resolve_columns tr.
  - intros pre headers rows rest Hpre.
    rewrite (event_table_scan_first _ _ _ _ Hpre). unfold table_cards.
    rewrite (map_ext _ (row_card headers) (event_card_resolved headers)).
    reflexivity.
  - intros headers tr i Hi Hne. rewrite event_card_resolved.
    unfold row_card at 1. do 5 eexists. f_equal.
    unfold resolved, under. cbn [List.map app]. rewrite Hi.
    destruct (column i tr); [congruence|reflexivity].
  - intros headers tr i Hevt Hi Hne. rewrite event_card_resolved.
    unfold row_card at 1. do 5 eexists. f_equal.
    unfold resolved. cbn [List.map app]. rewrite Hevt.
    unfold under. rewrite Hi.
    destruct (column i tr); [congruence|reflexivity].
Qed.

Lemma event_table_row_card_witness :
  event_table_scan
    [P (lit "前瞻");
     TABLE event_header [[lit "CPI"; lit "11-12"; lit "偏多"; lit "利好"; lit "券商"; lit "持有"]];
     TABLE event_header []]
  = [P (lit "前瞻");
     SECTION [EventCard (lit "CPI") (lit "11-12") (lit "利好")
                        (lit "偏多") (lit "券商") (lit "持有")];
     TABLE event_header []]
  /\ event_table_scan
       [P (lit "前瞻");
        TABLE [lit " 影响 "; lit "建议"; lit "事件名称"; lit "观点"; lit "板块与标的";
               lit "时间窗口"]
              [[lit "利好"; lit "持有"; lit "CPI"; lit "偏多"; lit "券商"; lit "11-12"]]]
     = [P (lit "前瞻");
        SECTION [EventCard (lit "CPI") (lit "11-12") (lit "利好")
                           (lit "偏多") (lit "券商") (lit "持有")]].
Proof.
  split.
  - exact (proj1 event_table_row_card [P (lit "前瞻")]
             [lit "CPI"; lit "11-12"; lit "偏多"; lit "利好"; lit "券商"; lit "持有"]
             [TABLE event_header []] eq_refl).
  - exact (proj1 (proj2 (proj2 (proj2 event_table_row_card))) [P (lit "前瞻")]
             [lit " 影响 "; lit "建议"; lit "事件名称"; lit "观点"; lit "板块与标的";
              lit "时间窗口"]
             [[lit "利好"; lit "持有"; lit "CPI"; lit "偏多"; lit "券商"; lit "11-12"]]
             [] eq_refl).
Defined.

(** ** A second pass *)




Lemma priority_scan_idle kids :
  anchor_idle pat_priority kids = true -> priority_scan kids = Some kids.
Proof.
  unfold anchor_idle, priority_scan.
  destruct (find_h3 pat_priority kids) as [h|]; [|reflexivity].
  cbn [priority_walk].
  destruct (nth_error kids (S h)) as [[]|]; try discriminate; reflexivity.
Qed.

Lemma review_scan_idle kids :
  anchor_idle pat_review kids = true -> review_scan kids = Some kids.
Proof.
  unfold anchor_idle, review_scan.
  destruct (find_h3 pat_review kids) as [h|]; [|reflexivity].
  cbn [review_walk].
  destruct (nth_error kids (S h)) as [[]|]; try discriminate; reflexivity.
Qed.

(** *** Removing the visited nodes *)







Lemma nth_error_middle {A} (pre : list A) x tail :
  nth_error (pre ++ x :: tail) (List.length pre) = Some x.
Proof. induction pre; simpl; auto. Qed.




Lemma find_h3_from_app pat t tail : forall pre i,
  find_h3_from pat i pre = None -> contains pat t = true ->
  find_h3_from pat i (pre ++ H3 t :: tail) = Some (i + List.length pre)%nat.
Proof.
  induction pre as [|n pre IH]; intros i Hpre Ht; simpl in *.
  - rewrite Ht. f_equal. lia.
  - destruct n; try (rewrite IH by auto; f_equal; lia).
    destruct (contains pat text); [discriminate|].
    rewrite IH by auto. f_equal. lia.
Qed.






(** *** The walks end: the fuel given by the scans is enough *)

Lemma collect_fields_forward cursor : forall f toRemove i,
  (i <= snd (collect_fields f toRemove i cursor))%nat.
Proof.
  induction cursor as [|n cursor IH]; intros f toRemove i; simpl; [lia|].
  destruct n; simpl; try lia;
    match goal with
    | |- context [collect_fields ?f' ?r' (S i) cursor] =>
        specialize (IH f' r' (S i)); lia
    end.
Qed.

Lemma priority_walk_total : forall fuel kids i cards toRemove,
  (0 < fuel)%nat -> (List.length kids < fuel + i)%nat ->
  exists r, priority_walk fuel kids i cards toRemove = Some r.
Proof.
  induction fuel as [|fuel IH]; intros kids i cards toRemove Hpos Hlen; [lia|].
  cbn [priority_walk].
  destruct (nth_error kids i) as [n|] eqn:E; [|eauto].
  assert (Hi : (i < List.length kids)%nat)
    by (apply nth_error_Some; congruence).
  destruct n; eauto; try (apply IH; lia). cbv zeta.
  match goal with
  | |- context [if ?b then _ else _] => destruct b; [|apply IH; lia]
  end.
  pose proof (collect_fields_forward (skipn (S i) kids) no_fields toRemove (S i)) as Hj.
  destruct (collect_fields no_fields toRemove (S i) (skipn (S i) kids))
    as [[f toRemove'] j]. simpl in Hj. apply IH; lia.
Qed.

Lemma review_walk_total : forall fuel kids i cards removeList,
  (0 < fuel)%nat -> (List.length kids < fuel + i)%nat ->
  exists r, review_walk fuel kids i cards removeList = Some r.
Proof.
  induction fuel as [|fuel IH]; intros kids i cards removeList Hpos Hlen; [lia|].
  cbn [review_walk].
  destruct (nth_error kids i) as [n|] eqn:E; [|eauto].
  assert (Hi : (i < List.length kids)%nat)
    by (apply nth_error_Some; congruence).
  destruct n; eauto; try (apply IH; lia).
  destruct (find_key (Js.trim text)); [|apply IH; lia].
  destruct (nth_error kids (S i)) as [[]|]; apply IH; lia.
Qed.

Lemma priority_scan_total kids : exists kids', priority_scan kids = Some kids'.
Proof.
  unfold priority_scan. destruct (find_h3 pat_priority kids) as [h|]; [|eauto].
  destruct (priority_walk_total (S (List.length kids)) kids (S h) [] [])
    as [[cards toRemove] ->]; [lia | lia | eauto].
Qed.

Lemma review_scan_total kids : exists kids', review_scan kids = Some kids'.
Proof.
  unfold review_scan. destruct (find_h3 pat_review kids) as [h|]; [|eauto].
  destruct (review_walk_total (S (List.length kids)) kids (S h) [] [])
    as [[cards removeList] ->]; [lia | lia | eauto].
Qed.

(** The pass always produces a document. *)
Lemma cardify_total kids : exists kids', cardify kids = Some kids'.
Proof.
  unfold cardify.
  destruct (priority_scan_total
              (event_table_scan (thematic_scan (priority_label_scan kids))))
    as [kids4 ->].
  apply review_scan_total.
Qed.

(** ** Blocks and the lines they consume *)

Lemma map_snoc {A B} (f : A -> B) l x : List.map f l ++ [f x] = List.map f (l ++ [x]).
Proof. rewrite map_app. reflexivity. Qed.

(** The loop keeps the buffers in step with the open run, and emits the
    blocks of the runs it closes. *)
Lemma step_tracks st cur raw :
  tracks st cur ->
  exists st1,
    step st raw = Py.Ok st1
    /\ tracks st1 (snd (advance cur raw))
    /\ out st1 = out st ++ List.map block_of_run (fst (advance cur raw)).
Proof.
  intros H. rewrite step_classified. unfold advance.
  destruct (classify raw) eqn:K; destruct H as [o | o first more Hk | o first more Hk];
    unfold run_is; rewrite ?Hk; cbn [kind_eqb fst snd close_run app List.map];
    rewrite ?flush_table_eq; unfold flush_list, emit;
    cbn [in_list list_items in_table table_lines out andb negb Py.bind
         List.length Nat.eqb List.map app];
    unfold block_of_run; rewrite ?K, ?Hk;
    (eexists; split; [reflexivity|]);
    cbn [out in_list list_items in_table table_lines];
    rewrite ?app_nil_r, <- ?app_assoc;
    (split; [| reflexivity]);
    try apply tracks_idle.
  - apply (tracks_table o raw []); exact K.
  - cbn [app]. rewrite map_snoc.
    apply (tracks_table o first (more ++ [raw])); exact Hk.
  - apply (tracks_table _ raw []); exact K.
  - apply (tracks_list o raw []); exact K.
  - apply (tracks_list _ raw []); exact K.
  - cbn [app]. rewrite map_snoc.
    apply (tracks_list o first (more ++ [raw])); exact Hk.
Qed.

Lemma flush_tracks st cur :
  tracks st cur ->
  (do st' <- flush_table (flush_list st); Py.Ok (out st'))
  = Py.Ok (out st ++ List.map block_of_run (close_run cur)).
Proof.
  intros [o | o first more Hk | o first more Hk];
    rewrite flush_table_eq; unfold flush_list, emit;
    cbn [close_run List.map]; unfold block_of_run;
    rewrite ?Hk; simpl; rewrite ?app_nil_r; reflexivity.
Qed.

Lemma parse_from lines : forall st cur,
  tracks st cur ->
  (do st' <- run_lines st lines;
   do st'' <- flush_table (flush_list st');
   Py.Ok (out st''))
  = Py.Ok (out st ++ List.map block_of_run (runs_from cur lines)).
Proof.
  induction lines as [|raw lines IH]; intros st cur H.
  - apply (flush_tracks st cur H).
  - destruct (step_tracks st cur raw H) as (st1 & E & H1 & Hout).
    cbn [run_lines runs_from]. rewrite E. cbn [Py.bind].
    rewrite (IH st1 _ H1), Hout, map_app, app_assoc. reflexivity.
Qed.

(** The parser emits one block per run, in order. *)
Lemma parse_lines_runs lines :
  parse_lines lines = Py.Ok (List.map block_of_run (runs lines)).
Proof.
  unfold parse_lines, runs.
  exact (parse_from lines init_state [] (tracks_idle [])).
Qed.

(** *** Every non-blank line is in exactly one run *)

Lemma classify_blank raw : classify raw = KBlank <-> is_blank raw = true.
Proof.
  unfold classify, is_blank. cbv zeta.
  destruct (stripped_line raw) as [|c s] eqn:E.
  - simpl. split; reflexivity.
  - cbn [nonempty negb].
    repeat match goal with
           | |- context [if ?b then _ else _] => destruct b
           end; split; discriminate.
Qed.

Lemma concat_close_run cur : List.concat (close_run cur) = cur.
Proof. destruct cur; simpl; rewrite ?app_nil_r; reflexivity. Qed.

Lemma advance_lines cur raw :
  List.concat (fst (advance cur raw)) ++ snd (advance cur raw)
  = cur ++ (if is_blank raw then [] else [raw]).
Proof.
  pose proof (classify_blank raw) as Hb. unfold advance.
  destruct (classify raw);
    (destruct (is_blank raw); [try (destruct Hb as [_ Hb]; discriminate (Hb eq_refl))
                              |try (destruct Hb as [Hb _]; discriminate (Hb eq_refl))]);
    repeat match goal with
           | |- context [if ?b then _ else _] => destruct b
           end;
    cbn [fst snd]; rewrite ?concat_app, ?concat_close_run; simpl;
    rewrite ?app_nil_r; reflexivity.
Qed.

Lemma runs_from_lines lines : forall cur,
  List.concat (runs_from cur lines)
  = cur ++ List.filter (fun raw => negb (is_blank raw)) lines.
Proof.
  induction lines as [|raw lines IH]; intros cur; cbn [runs_from List.filter].
  - rewrite concat_close_run, app_nil_r. reflexivity.
  - rewrite concat_app, IH, app_assoc, advance_lines.
    destruct (is_blank raw); simpl; rewrite <- ?app_assoc; rewrite ?app_nil_r;
      reflexivity.
Qed.

(** *** The runs are table runs, list runs or single lines *)

Lemma kind_eqb_eq a b : kind_eqb a b = true <-> a = b.
Proof. destruct a, b; simpl; split; (reflexivity || discriminate). Qed.

Lemma close_run_well_formed cur :
  cur = [] \/ well_formed_run cur -> Forall well_formed_run (close_run cur).
Proof.
  intros [-> | H]; [constructor|].
  destruct cur; [destruct H|]. repeat constructor. exact H.
Qed.

Lemma advance_well_formed cur raw :
  cur = [] \/ well_formed_run cur ->
  Forall well_formed_run (fst (advance cur raw))
  /\ (snd (advance cur raw) = [] \/ well_formed_run (snd (advance cur raw))).
Proof.
  intros Hcur. pose proof (close_run_well_formed cur Hcur) as Hclose.
  unfold advance. destruct (classify raw) eqn:K;
    try (cbn [fst snd]; split; [|left; reflexivity];
         first [ exact Hclose
               | apply Forall_app; split; [exact Hclose|];
                 repeat constructor; unfold well_formed_run; rewrite K;
                 reflexivity ]).
  - destruct (run_is KTable cur) eqn:R; cbn [fst snd].
    + split; [constructor|]. right.
      destruct cur as [|first more]; [discriminate|].
      unfold run_is in R. apply kind_eqb_eq in R.
      destruct Hcur as [Hcur | Hcur]; [discriminate|].
      unfold well_formed_run in *. cbn [app]. rewrite R in *.
      apply Forall_app. split; [exact Hcur | repeat constructor; exact K].
    + split; [exact Hclose|]. right. unfold well_formed_run. rewrite K. constructor.
  - destruct (run_is KList cur) eqn:R; cbn [fst snd].
    + split; [constructor|]. right.
      destruct cur as [|first more]; [discriminate|].
      unfold run_is in R. apply kind_eqb_eq in R.
      destruct Hcur as [Hcur | Hcur]; [discriminate|].
      unfold well_formed_run in *. cbn [app]. rewrite R in *.
      apply Forall_app. split; [exact Hcur | repeat constructor; exact K].
    + split; [exact Hclose|]. right. unfold well_formed_run. rewrite K. constructor.
Qed.

Lemma runs_from_well_formed lines : forall cur,
  cur = [] \/ well_formed_run cur -> Forall well_formed_run (runs_from cur lines).
Proof.
  induction lines as [|raw lines IH]; intros cur Hcur; cbn [runs_from].
  - apply close_run_well_formed, Hcur.
  - destruct (advance_well_formed cur raw Hcur) as [Hdone Hnext].
    apply Forall_app. split; [exact Hdone | apply IH, Hnext].
Qed.

(** *** The text of a block is the text of its lines *)

Lemma table_lines_texts ls :
  Forall (fun raw => classify raw = KTable) ls ->
  flat_map line_texts ls = List.concat (List.map parse_row (List.map stripped_line ls)).
Proof.
  induction 1 as [|raw ls K _ IH]; simpl; [reflexivity|].
  rewrite IH. unfold line_texts. rewrite K. reflexivity.
Qed.

Lemma list_lines_texts ls :
  Forall (fun raw => classify raw = KList) ls ->
  flat_map line_texts ls = List.map item_of ls.
Proof.
  induction 1 as [|raw ls K _ IH]; simpl; [reflexivity|].
  rewrite IH. unfold line_texts. rewrite K. reflexivity.
Qed.

Lemma block_texts_run run :
  well_formed_run run -> block_texts (block_of_run run) = run_texts run.
Proof.
  destruct run as [|first more]; [intros []|].
  unfold well_formed_run, block_of_run.
  destruct (classify first) eqn:K; intros H;
    try (subst more; unfold run_texts; simpl; unfold line_texts; rewrite K;
         reflexivity).
  - destruct more as [|second more].
    + unfold run_texts. simpl. unfold line_texts. rewrite K. reflexivity.
    + inversion H as [|? ? K2 Hmore]; subst.
      unfold run_texts. rewrite K. cbn [kind_eqb andb].
      unfold table_of_lines. cbn [List.map hd skipn block_texts].
      destruct (is_separator (parse_row (stripped_line second))).
      * rewrite (table_lines_texts more Hmore). unfold line_texts. rewrite K.
        reflexivity.
      * rewrite (table_lines_texts (first :: second :: more))
          by (constructor; [exact K | exact H]).
        reflexivity.
  - assert (Hall : Forall (fun raw => classify raw = KList) (first :: more))
      by (constructor; [exact K | exact H]).
    cbn [block_texts]. rewrite <- (list_lines_texts _ Hall).
    unfold run_texts. rewrite K. cbn [kind_eqb andb].
    destruct more as [|second more]; reflexivity.
  - destruct H.
Qed.

Lemma blocks_texts_runs rs :
  Forall well_formed_run rs ->
  flat_map block_texts (List.map block_of_run rs) = flat_map run_texts rs.
Proof.
  induction 1 as [|run rs Hrun _ IH]; simpl; [reflexivity|].
  rewrite (block_texts_run run Hrun), IH. reflexivity.
Qed.

(** C4, as stated, fails: the text of the blocks is not the text of the
    non-blank lines once pipes are stripped, for the dash-only second row
    of a table is consumed by the table block and its cells are dropped. *)
Lemma separator_row_text_is_dropped_counterexample :
  md_blocks (lit "|a|" ++ newline ++ lit "|-|" ++ newline ++ lit "|b|")
    = Py.Ok [TableBlock [lit "a"] [[lit "b"]]]
  /\ flat_map block_texts [TableBlock [lit "a"] [[lit "b"]]] = [lit "a"; lit "b"]
  /\ flat_map line_texts
       (List.filter (fun raw => negb (is_blank raw))
          (Py.splitlines (lit "|a|" ++ newline ++ lit "|-|" ++ newline ++ lit "|b|")))
     = [lit "a"; lit "-"; lit "b"].
Proof. repeat split; vm_compute; reflexivity. Qed.

(** C4, amended.  For every input text the lines split into runs: each run
    is a sequence of table lines, a sequence of list lines, or one single
    heading, rule or plain line; the runs, put end to end, are the
    non-blank lines in their order, so each non-blank line is in exactly
    one run and no two runs overlap; the parser emits exactly one block per
    run, in order; and the texts of the blocks are the texts of the lines
    with their markup stripped, except that the second line of a table run
    contributes nothing when it is a separator row. *)
Theorem blocks_consume_nonblank_lines (md : str) :
  md_blocks md = Py.Ok (List.map block_of_run (runs (Py.splitlines md)))
  /\ Forall well_formed_run (runs (Py.splitlines md))
  /\ List.concat (runs (Py.splitlines md))
     = List.filter (fun raw => negb (is_blank raw)) (Py.splitlines md)
  /\ flat_map block_texts (List.map block_of_run (runs (Py.splitlines md)))
     = flat_map run_texts (runs (Py.splitlines md)).
Proof.
  assert (Hwf : Forall well_formed_run (runs (Py.splitlines md)))
    by (apply runs_from_well_formed; left; reflexivity).
  split; [apply parse_lines_runs|].
  split; [exact Hwf|].
  split; [apply (runs_from_lines (Py.splitlines md) [])|].
  apply blocks_texts_runs, Hwf.
Qed.

(** * Further properties of the parser *)

(** ** Empty and blank input, and the number of blocks *)

Lemma runs_from_blank lines :
  Forall (fun raw => is_blank raw = true) lines -> runs_from [] lines = [].
Proof.
  induction 1 as [|raw lines Hb _ IH]; [reflexivity|].
  cbn [runs_from]. unfold advance.
  apply classify_blank in Hb. rewrite Hb. cbn [fst snd close_run app]. exact IH.
Qed.

(** X1.  A text whose lines are all blank, the empty text included, gives no
    block and the empty markup. *)
Theorem blank_text_gives_empty_markup (md : str) :
  Forall (fun raw => is_blank raw = true) (Py.splitlines md) ->
  md_blocks md = Py.Ok [] /\ md_to_html md = Py.Ok [].
Proof.
  intros H.
  assert (E : md_blocks md = Py.Ok []).
  { unfold md_blocks. rewrite parse_lines_runs. unfold runs.
    rewrite (runs_from_blank _ H). reflexivity. }
  split; [exact E|]. unfold md_to_html. rewrite E. reflexivity.
Qed.

Lemma blank_text_gives_empty_markup_witness :
  md_blocks ([32; 32] ++ newline ++ [9] ++ newline) = Py.Ok []
  /\ md_to_html ([32; 32] ++ newline ++ [9] ++ newline) = Py.Ok [].
Proof.
  apply blank_text_gives_empty_markup. repeat constructor.
Defined.

Lemma well_formed_run_nonempty run : well_formed_run run -> run <> [].
Proof. destruct run; [intros [] | discriminate]. Qed.

Lemma length_concat_nonempty {A} (ls : list (list A)) :
  Forall (fun l => l <> []) ls -> (List.length ls <= List.length (List.concat ls))%nat.
Proof.
  induction 1 as [|l ls Hl _ IH]; simpl; [lia|].
  rewrite length_app. destruct l; [congruence|]. simpl. lia.
Qed.

(** X2.  The parser never emits more blocks than the text has non-blank
    lines. *)
Theorem blocks_at_most_nonblank_lines (md : str) :
  exists blocks,
    md_blocks md = Py.Ok blocks
    /\ (List.length blocks
        <= List.length (List.filter (fun raw => negb (is_blank raw)) (Py.splitlines md)))%nat.
Proof.
  exists (List.map block_of_run (runs (Py.splitlines md))).
  split; [apply parse_lines_runs|].
  pose proof (runs_from_lines (Py.splitlines md) []) as E. cbn [app] in E.
  rewrite length_map, <- E.
  apply length_concat_nonempty.
  eapply List.Forall_impl; [|apply runs_from_well_formed; left; reflexivity].
  intros run. apply well_formed_run_nonempty.
Qed.

(** ** Lines that separate blocks *)

Lemma advance_boundary_fst cur raw :
  boundary_line raw = true ->
  fst (advance cur raw) = close_run cur ++ fst (advance [] raw).
Proof.
  unfold boundary_line, advance.
  destruct (classify raw); try discriminate; intros _; cbn [fst close_run app];
    rewrite ?app_nil_r; reflexivity.
Qed.

Lemma advance_boundary_snd cur raw :
  boundary_line raw = true -> snd (advance cur raw) = [].
Proof.
  unfold boundary_line, advance.
  destruct (classify raw); try discriminate; reflexivity.
Qed.

Lemma runs_from_boundary l1 raw l2 : forall cur,
  boundary_line raw = true ->
  runs_from cur (l1 ++ raw :: l2)
  = runs_from cur l1 ++ runs_from [] [raw] ++ runs_from [] l2.
Proof.
  induction l1 as [|x l1 IH]; intros cur Hb.
  - cbn [app runs_from].
    rewrite (advance_boundary_fst cur raw Hb), !(advance_boundary_snd _ raw Hb).
    cbn [close_run]. rewrite app_nil_r, <- !app_assoc. reflexivity.
  - cbn [app runs_from]. rewrite (IH _ Hb), app_assoc. reflexivity.
Qed.

(** X3.  A line that is neither a table line nor a list line (a blank
    line, a heading, a rule, a plain line) separates what is before it from
    what is after it: the blocks of the whole are the blocks of the lines
    before, then the block of the line, then the blocks of the lines after. *)
Theorem boundary_line_splits_parsing l1 raw l2 :
  boundary_line raw = true ->
  exists before middle after,
    parse_lines l1 = Py.Ok before
    /\ parse_lines [raw] = Py.Ok middle
    /\ parse_lines l2 = Py.Ok after
    /\ parse_lines (l1 ++ raw :: l2) = Py.Ok (before ++ middle ++ after).
Proof.
  intros Hb. rewrite !parse_lines_runs. unfold runs.
  rewrite (runs_from_boundary l1 raw l2 [] Hb), !map_app. eauto 10.
Qed.

Lemma boundary_line_splits_parsing_witness :
  exists before middle after,
    parse_lines [lit "- a"] = Py.Ok before
    /\ parse_lines [lit "### t"] = Py.Ok middle
    /\ parse_lines [lit "- b"] = Py.Ok after
    /\ parse_lines ([lit "- a"] ++ lit "### t" :: [lit "- b"])
       = Py.Ok (before ++ middle ++ after).
Proof.
  exact (boundary_line_splits_parsing [lit "- a"] (lit "### t") [lit "- b"] eq_refl).
Defined.

(** ** Aggregation of consecutive lines *)

Lemma runs_from_same k : forall more first cur,
  (k = KTable \/ k = KList) ->
  classify first = k ->
  Forall (fun raw => classify raw = k) more ->
  runs_from (first :: cur) more = [first :: cur ++ more].
Proof.
  induction more as [|raw more IH]; intros first cur Hk Hfirst Hmore.
  - cbn [runs_from close_run]. rewrite app_nil_r. reflexivity.
  - pose proof (List.Forall_inv Hmore) as Hraw.
    pose proof (List.Forall_inv_tail Hmore) as Hmore'.
    cbn [runs_from]. unfold advance. rewrite Hraw. unfold run_is.
    destruct Hk as [Hk | Hk]; subst k; rewrite Hfirst;
      cbn [kind_eqb fst snd app];
      rewrite (IH first (cur ++ [raw])) by auto;
      rewrite <- app_assoc; reflexivity.
Qed.

(** X4.  Consecutive list lines give exactly one list block with one item
    per line, in order; consecutive table lines give exactly one table
    block built from all of them. *)
Theorem consecutive_lines_aggregate first more :
  (classify first = KList ->
   Forall (fun raw => classify raw = KList) more ->
   parse_lines (first :: more) = Py.Ok [ListBlock (List.map item_of (first :: more))])
  /\ (classify first = KTable ->
      Forall (fun raw => classify raw = KTable) more ->
      parse_lines (first :: more)
      = Py.Ok [table_of_lines (List.map stripped_line (first :: more))]).
Proof.
  split; intros Hfirst Hmore; rewrite parse_lines_runs; unfold runs;
    cbn [runs_from]; unfold advance; rewrite Hfirst; cbn [run_is fst snd close_run app].
  - rewrite (runs_from_same KList more first []) by auto.
    cbn [List.map app]. unfold block_of_run. rewrite Hfirst. reflexivity.
  - rewrite (runs_from_same KTable more first []) by auto.
    cbn [List.map app]. unfold block_of_run. rewrite Hfirst. reflexivity.
Qed.

Lemma consecutive_lines_aggregate_witness :
  parse_lines [lit "- a"; lit "  - **b**"; lit "- c"]
  = Py.Ok [ListBlock [lit "a"; lit "b"; lit "c"]].
Proof.
  apply (proj1 (consecutive_lines_aggregate (lit "- a") [lit "  - **b**"; lit "- c"]));
    [reflexivity | repeat constructor].
Defined.

(** ** Bold markers *)

Lemma replace_bold_pair t :
  Py.replace bold_marker [] (42 :: 42 :: t) = Py.replace bold_marker [] t.
Proof. reflexivity. Qed.

Lemma replace_bold_other c t :
  startswith bold_marker (c :: t) = false ->
  Py.replace bold_marker [] (c :: t) = c :: Py.replace bold_marker [] t.
Proof.
  intros H. unfold Py.replace. cbn [Py.replace_from].
  change (nonempty bold_marker) with true. cbn [andb]. rewrite H. reflexivity.
Qed.

Lemma replace_bold_no_star t :
  startswith [42] t = false ->
  startswith [42] (Py.replace bold_marker [] t) = false.
Proof.
  destruct t as [|d t]; [reflexivity|]. cbn [startswith]. intros H.
  rewrite andb_true_r in H.
  rewrite replace_bold_other
    by (unfold bold_marker; cbn [startswith]; rewrite H; reflexivity).
  cbn [startswith]. rewrite H. reflexivity.
Qed.

Lemma replace_bold_bounded n : forall s,
  (List.length s <= n)%nat ->
  contains bold_marker (Py.replace bold_marker [] s) = false.
Proof.
  induction n as [|n IH]; intros s Hlen.
  - destruct s; [reflexivity | simpl in Hlen; lia].
  - destruct s as [|c t]; [reflexivity|]. simpl in Hlen.
    destruct (startswith bold_marker (c :: t)) eqn:E.
    + unfold bold_marker in E. cbn [startswith] in E.
      apply andb_true_iff in E as [Ec Et].
      destruct t as [|d t]; [discriminate|].
      apply andb_true_iff in Et as [Ed _].
      apply N.eqb_eq in Ec, Ed. subst c d.
      rewrite replace_bold_pair. apply IH. simpl in Hlen. lia.
    + rewrite (replace_bold_other c t E). cbn [contains].
      rewrite (IH t) by lia. rewrite orb_false_r.
      unfold bold_marker in *. cbn [startswith] in *.
      destruct (42 =? c); [|reflexivity]. cbn [andb] in *.
      apply replace_bold_no_star, E.
Qed.

(** After [s.replace("**", "")] no bold marker is left. *)
Lemma replace_bold_removes_all s :
  contains bold_marker (Py.replace bold_marker [] s) = false.
Proof. apply (replace_bold_bounded (List.length s)). lia. Qed.

Lemma startswith_app p a b :
  startswith p a = true -> startswith p (a ++ b) = true.
Proof.
  revert a. induction p as [|x p IH]; intros [|y a]; simpl; try discriminate; auto.
  intros H. apply andb_true_iff in H as [Hx Hp].
  change ((x =? y) && startswith p (a ++ b) = true).
  rewrite Hx, (IH a Hp). reflexivity.
Qed.

Lemma contains_app_l p a b :
  contains p a = true -> contains p (a ++ b) = true.
Proof.
  induction a as [|y a IH]; cbn [contains app].
  - rewrite orb_false_r. intros H. destruct p; [|discriminate].
    destruct b; reflexivity.
  - intros H. apply orb_true_iff in H as [H | H].
    + pose proof (startswith_app _ _ b H) as H'. cbn [app] in H'.
      rewrite H'. reflexivity.
    + rewrite (IH H). apply orb_true_r.
Qed.

Lemma rstrip_by_prefix f s : exists b, rstrip_by f s ++ b = s.
Proof.
  induction s as [|c t [b Hb]]; [exists []; reflexivity|]. simpl.
  destruct (rstrip_by f t) as [|x r].
  - destruct (f c); [exists (c :: t) | exists t]; reflexivity.
  - exists b. simpl. rewrite <- Hb. reflexivity.
Qed.

Lemma contains_rstrip_by p f s :
  contains p s = false -> contains p (rstrip_by f s) = false.
Proof.
  intros H. destruct (contains p (rstrip_by f s)) eqn:E; [|reflexivity].
  destruct (rstrip_by_prefix f s) as [b Hb].
  apply (contains_app_l p _ b) in E. rewrite Hb in E. congruence.
Qed.

Lemma contains_lstrip_by p f s :
  contains p s = false -> contains p (lstrip_by f s) = false.
Proof.
  induction s as [|c t IH]; [auto|]. cbn [lstrip_by].
  destruct (f c); [|auto]. cbn [contains]. intros H.
  apply orb_false_iff in H as [_ H]. auto.
Qed.

Lemma contains_strip p s :
  contains p s = false -> contains p (Py.strip s) = false.
Proof.
  intros H. unfold Py.strip, Py.lstrip, Py.rstrip.
  apply contains_lstrip_by, contains_rstrip_by, H.
Qed.

Lemma block_of_run_no_bold run : no_bold_left (block_of_run run).
Proof.
  destruct run as [|first more]; [reflexivity|].
  unfold block_of_run. destruct (classify first); simpl; auto.
  - constructor.
    + apply contains_strip, replace_bold_removes_all.
    + apply List.Forall_forall. intros item Hin. apply in_map_iff in Hin as (raw & <- & _).
      apply contains_strip, replace_bold_removes_all.
  - apply replace_bold_removes_all.
Qed.

(** X5.  No paragraph and no list item of the output holds a bold marker:
    all of them are removed, also where markers touch each other. *)
Theorem bold_markers_are_removed (md : str) :
  exists blocks, md_blocks md = Py.Ok blocks /\ Forall no_bold_left blocks.
Proof.
  exists (List.map block_of_run (runs (Py.splitlines md))).
  split; [apply parse_lines_runs|].
  apply List.Forall_forall. intros b Hin. apply in_map_iff in Hin as (run & <- & _).
  apply block_of_run_no_bold.
Qed.

(** ** The shape of lists and tables *)

Lemma split_on_nonempty sep s : split_on sep s <> [].
Proof.
  destruct s as [|c t]; simpl; [discriminate|].
  destruct (c =? sep); [discriminate|].
  destruct (split_on sep t); discriminate.
Qed.

Lemma parse_row_nonempty tline : parse_row tline <> [].
Proof.
  unfold parse_row, Py.split. intros H. apply map_eq_nil in H.
  exact (split_on_nonempty _ _ H).
Qed.

Lemma table_of_lines_not_hollow first more :
  block_not_hollow (table_of_lines (first :: more)).
Proof.
  unfold table_of_lines. cbn [List.map hd block_not_hollow].
  change (skipn 1 (parse_row first :: List.map parse_row more))
    with (List.map parse_row more).
  split; [apply parse_row_nonempty|].
  assert (Hall : Forall (fun row => row <> []) (List.map parse_row more)).
  { apply List.Forall_forall. intros row Hin.
    apply in_map_iff in Hin as (l & <- & _). apply parse_row_nonempty. }
  destruct more as [|second more]; [constructor|]. cbn [List.map] in *.
  destruct (is_separator (parse_row second)); [|exact Hall].
  exact (List.Forall_inv_tail Hall).
Qed.

Lemma block_of_run_not_hollow run : block_not_hollow (block_of_run run).
Proof.
  destruct run as [|first more]; [exact I|].
  unfold block_of_run. destruct (classify first); try exact I.
  - apply table_of_lines_not_hollow.
  - discriminate.
Qed.

(** X6.  The parser never emits a list without an item, nor a table whose
    header or whose body row has no cell. *)
Theorem lists_and_tables_are_not_hollow (md : str) :
  exists blocks, md_blocks md = Py.Ok blocks /\ Forall block_not_hollow blocks.
Proof.
  exists (List.map block_of_run (runs (Py.splitlines md))).
  split; [apply parse_lines_runs|].
  apply List.Forall_forall. intros b Hin. apply in_map_iff in Hin as (run & <- & _).
  apply block_of_run_not_hollow.
Qed.

(** ** Trimmed texts *)

Lemma lstrip_by_idem f s : lstrip_by f (lstrip_by f s) = lstrip_by f s.
Proof.
  induction s as [|c t IH]; [reflexivity|]. cbn [lstrip_by].
  destruct (f c) eqn:E; [exact IH|]. cbn [lstrip_by]. rewrite E. reflexivity.
Qed.

Lemma strip_idem s : Py.strip (Py.strip s) = Py.strip s.
Proof.
  unfold Py.strip, Py.lstrip, Py.rstrip.
  rewrite <- (lstrip_rstrip_comm _ (rstrip_by _ s)), lstrip_by_idem, rstrip_by_idem.
  reflexivity.
Qed.

Lemma parse_row_trimmed tline : Forall (fun c => Py.strip c = c) (parse_row tline).
Proof.
  unfold parse_row. apply List.Forall_forall. intros c Hin.
  apply in_map_iff in Hin as (x & <- & _). apply strip_idem.
Qed.

Lemma table_of_lines_trimmed tlines :
  Forall (fun c => Py.strip c = c) (trimmed_texts (table_of_lines tlines)).
Proof.
  assert (Hrows : forall ls,
    Forall (fun c => Py.strip c = c) (List.concat (List.map parse_row ls))).
  { induction ls as [|l ls IH]; simpl; [constructor|].
    apply Forall_app. split; [apply parse_row_trimmed | exact IH]. }
  unfold table_of_lines. cbn [trimmed_texts].
  destruct tlines as [|first more]; [constructor|]. cbn [List.map hd].
  change (skipn 1 (parse_row first :: List.map parse_row more))
    with (List.map parse_row more).
  apply Forall_app. split; [apply parse_row_trimmed|].
  destruct more as [|second more]; [constructor|]. cbn [List.map].
  destruct (is_separator (parse_row second)).
  - apply Hrows.
  - apply (Hrows (second :: more)).
Qed.

Lemma block_of_run_trimmed run :
  Forall (fun c => Py.strip c = c) (trimmed_texts (block_of_run run)).
Proof.
  destruct run as [|first more]; [constructor|].
  unfold block_of_run. destruct (classify first); cbn [trimmed_texts].
  - repeat constructor. apply strip_idem.
  - repeat constructor. apply strip_idem.
  - apply table_of_lines_trimmed.
  - constructor.
  - apply List.Forall_forall. intros c Hin.
    apply in_map_iff in Hin as (x & <- & _). apply strip_idem.
  - constructor.
  - constructor.
Qed.

(** X7.  Heading texts, list items and table cells come out trimmed: none
    of them starts or ends with white space. *)
Theorem headings_items_cells_are_trimmed (md : str) :
  exists blocks,
    md_blocks md = Py.Ok blocks
    /\ Forall (fun b => Forall (fun c => Py.strip c = c) (trimmed_texts b)) blocks.
Proof.
  exists (List.map block_of_run (runs (Py.splitlines md))).
  split; [apply parse_lines_runs|].
  apply List.Forall_forall. intros b Hin. apply in_map_iff in Hin as (run & <- & _).
  apply block_of_run_trimmed.
Qed.

(** ** Headings *)

(** X8.  A line that starts with four number signs and a space is a level-4
    heading: the test for the level-3 prefix, which comes first, does not
    take it. *)
Theorem level4_prefix_is_not_level3 (raw : str) :
  startswith h4_prefix (stripped_line raw) = true ->
  parse_lines [raw]
  = Py.Ok [Heading4 (Py.strip (skipn 5 (stripped_line raw)))].
Proof.
  intros H.
  assert (K : classify raw = KHeading4).
  { unfold classify. cbv zeta. rewrite H.
    destruct (stripped_line raw) as [|a [|b [|c [|d [|e s]]]]];
      unfold h4_prefix in H; cbn [startswith] in H;
      repeat (apply andb_true_iff in H as [? H]); try discriminate.
    repeat match goal with E : (_ =? _) = true |- _ => apply N.eqb_eq in E end.
    subst. reflexivity. }
  rewrite parse_lines_runs. unfold runs. cbn [runs_from]. unfold advance.
  rewrite K. cbn [fst snd close_run app List.map]. unfold block_of_run.
  rewrite K. reflexivity.
Qed.

Lemma level4_prefix_is_not_level3_witness :
  parse_lines [lit "  #### 细节 "] = Py.Ok [Heading4 (lit "细节")].
Proof.
  exact (level4_prefix_is_not_level3 (lit "  #### 细节 ") eq_refl).
Defined.

(** * Further properties of the card-ification script *)

(** ** Reading the value of a labelled entry *)






Lemma In_lstrip_by f (c : char) s : In c (lstrip_by f s) -> In c s.
Proof.
  induction s as [|x t IH]; cbn [lstrip_by]; [tauto|].
  destruct (f x); [intros H; right; auto|tauto].
Qed.



(** ** A section is replaced as a whole *)

Lemma existsb_nat_In i l : existsb (Nat.eqb i) l = true <-> In i l.
Proof.
  rewrite existsb_exists. split.
  - intros (x & Hin & Heq). apply Nat.eqb_eq in Heq. subst. exact Hin.
  - intros H. exists i. split; [exact H | apply Nat.eqb_refl].
Qed.

Section RemoveRange.

Variables (removed : list nat) (first a k : nat) (c : node).
Hypothesis removed_range : forall i, In i removed <-> (a <= i < a + k)%nat.
Hypothesis first_range : (a <= first < a + k)%nat.

Lemma removed_in i : (a <= i < a + k)%nat -> existsb (Nat.eqb i) removed = true.
Proof using removed_range first_range. intros H. apply existsb_nat_In, removed_range, H. Qed.

Lemma removed_out i :
  (i < a \/ a + k <= i)%nat -> existsb (Nat.eqb i) removed = false.
Proof using removed_range first_range.
  intros H. destruct (existsb (Nat.eqb i) removed) eqn:E; [|reflexivity].
  apply existsb_nat_In, removed_range in E. lia.
Qed.

Lemma remove_range_before tail : forall pre i,
  (i + List.length pre = a)%nat ->
  remove_at removed first c i (pre ++ tail)
  = pre ++ remove_at removed first c a tail.
Proof using removed_range first_range.
  induction pre as [|n pre IH]; intros i Hi; simpl in *.
  - replace i with a by lia. reflexivity.
  - replace (Nat.eqb i first) with false by (symmetry; apply Nat.eqb_neq; lia).
    rewrite removed_out by lia. simpl. rewrite IH by lia. reflexivity.
Qed.

Lemma remove_range_after : forall rest j,
  (first < j)%nat -> (a + k <= j)%nat ->
  remove_at removed first c j rest = rest.
Proof using removed_range first_range.
  induction rest as [|n rest IH]; intros j Hf Hk; simpl; [reflexivity|].
  replace (Nat.eqb j first) with false by (symmetry; apply Nat.eqb_neq; lia).
  rewrite removed_out by lia. simpl. rewrite IH by lia. reflexivity.
Qed.

Lemma remove_range_inside rest : forall sect j,
  (a <= j)%nat -> (j + List.length sect = a + k)%nat ->
  remove_at removed first c j (sect ++ rest)
  = (if Nat.leb j first then [c] else []) ++ rest.
Proof using removed_range first_range.
  induction sect as [|n sect IH]; intros j Ha Hlen; simpl in *.
  - replace (Nat.leb j first) with false by (symmetry; apply Nat.leb_gt; lia).
    apply remove_range_after; lia.
  - rewrite removed_in by lia. rewrite IH by lia.
    destruct (Nat.eqb j first) eqn:E.
    + apply Nat.eqb_eq in E. subst j.
      rewrite Nat.leb_refl.
      replace (Nat.leb (S first) first) with false
        by (symmetry; apply Nat.leb_gt; lia).
      reflexivity.
    + apply Nat.eqb_neq in E.
      destruct (Nat.leb j first) eqn:L.
      * apply Nat.leb_le in L.
        replace (Nat.leb (S j) first) with true by (symmetry; apply Nat.leb_le; lia).
        reflexivity.
      * apply Nat.leb_gt in L.
        replace (Nat.leb (S j) first) with false by (symmetry; apply Nat.leb_gt; lia).
        reflexivity.
Qed.

(** Whatever the order of the removal list and wherever in the section the
    container is inserted, the section is replaced by the container. *)
Lemma remove_range pre sect rest :
  List.length pre = a -> List.length sect = k ->
  remove_at removed first c 0 (pre ++ sect ++ rest) = pre ++ c :: rest.
Proof using removed_range first_range.
  intros Hpre Hsect. rewrite remove_range_before by lia.
  rewrite remove_range_inside by lia.
  replace (Nat.leb a first) with true by (symmetry; apply Nat.leb_le; lia).
  reflexivity.
Qed.

End RemoveRange.

Lemma replace_removed_range removed c pre sect rest :
  sect <> [] ->
  (forall i, In i removed
             <-> (List.length pre <= i < List.length pre + List.length sect)%nat) ->
  replace_removed removed c (pre ++ sect ++ rest) = pre ++ c :: rest.
Proof.
  intros Hne Hrange. unfold replace_removed.
  destruct removed as [|first removed'].
  - exfalso. destruct sect as [|n sect]; [congruence|].
    apply (Hrange (List.length pre)). simpl. lia.
  - apply (remove_range (first :: removed') first (List.length pre) (List.length sect));
      auto.
    apply Hrange. left. reflexivity.
Qed.

Lemma nth_error_past_section pre rest :
  section_end rest = true ->
  match nth_error (pre ++ rest) (List.length pre) with
  | None => True
  | Some n => is_h3 n = true
  end.
Proof.
  destruct rest as [|n rest]; simpl; intros H.
  - rewrite app_nil_r.
    replace (nth_error pre (List.length pre)) with (@None node)
      by (symmetry; apply nth_error_None; lia).
    exact I.
  - rewrite nth_error_middle. exact H.
Qed.

Lemma snoc_app {A} (pre : list A) x tail : pre ++ x :: tail = (pre ++ [x]) ++ tail.
Proof. rewrite <- app_assoc. reflexivity. Qed.

Lemma length_snoc {A} (pre : list A) x : List.length (pre ++ [x]) = S (List.length pre).
Proof. rewrite length_app. simpl. lia. Qed.

(** The walk of the market-review scan over a section: the cards of the
    section, and every position of the section on the removal list. *)
Lemma review_walk_cards rest n : forall sect,
  (List.length sect <= n)%nat ->
  forall pre fuel cards removeList,
  forallb (fun x => negb (is_h3 x)) sect = true ->
  section_end rest = true -> (List.length sect < fuel)%nat ->
  exists idx,
    review_walk fuel (pre ++ sect ++ rest) (List.length pre) cards removeList
    = Some (cards ++ review_cards sect, removeList ++ idx)
    /\ forall i, In i idx
                 <-> (List.length pre <= i < List.length pre + List.length sect)%nat.
Proof.
  induction n as [|n IH]; intros sect Hn pre fuel cards removeList Hsect Hend Hfuel.
  - destruct sect; [|simpl in Hn; lia].
    destruct fuel as [|fuel]; [lia|]. cbn [review_walk app].
    pose proof (nth_error_past_section pre rest Hend) as Hpast.
    exists []. rewrite !app_nil_r. split; [|simpl; intros i; lia].
    destruct (nth_error (pre ++ rest) (List.length pre)) as [[]|];
      try discriminate; reflexivity.
  - destruct sect as [|x sect].
    { apply (IH [] ltac:(simpl; lia) pre fuel cards removeList); auto. }
    destruct fuel as [|fuel]; [simpl in Hfuel; lia|].
    simpl in Hn, Hfuel. cbn [forallb] in Hsect.
    apply andb_true_iff in Hsect as [Hx Hsect].
    (* one node forward *)
    assert (Step1 : forall cards',
      exists idx,
        review_walk fuel (pre ++ x :: sect ++ rest) (S (List.length pre)) cards'
          (removeList ++ [List.length pre])
        = Some (cards' ++ review_cards sect, removeList ++ idx)
        /\ forall i, In i idx
           <-> (List.length pre <= i < List.length pre + S (List.length sect))%nat).
    { intros cards'.
      destruct (IH sect ltac:(lia) (pre ++ [x]) fuel cards'
                  (removeList ++ [List.length pre]) Hsect Hend ltac:(lia))
        as (idx & E & Hidx).
      rewrite <- snoc_app, length_snoc in E. rewrite length_snoc in Hidx.
      exists (List.length pre :: idx). rewrite E, <- app_assoc. split; [reflexivity|].
      intros i. simpl. rewrite Hidx. lia. }
    cbn [review_walk app]. rewrite nth_error_middle.
    destruct x as [| |t| | | | |]; try discriminate;
      try (destruct (Step1 cards) as (idx & E & Hidx); exists idx; split;
           [exact E | exact Hidx]).
    cbn [review_cards]. destruct (find_key (Js.trim t)) as [key|];
      [|destruct (Step1 cards) as (idx & E & Hidx); exists idx; split;
        [exact E | exact Hidx]].
    destruct sect as [|y sect].
    + cbn [app].
      pose proof (nth_error_past_section (pre ++ [P t]) rest Hend) as Hpast.
      rewrite <- snoc_app, length_snoc in Hpast.
      destruct (Step1 (cards ++ [ReviewCard key NoContent])) as (idx & E & Hidx).
      exists idx. split; [|exact Hidx].
      cbn [app] in E. rewrite <- app_assoc in E. cbn [review_cards app] in E.
      destruct (nth_error (pre ++ P t :: rest) (S (List.length pre))) as [[]|];
        try discriminate; exact E.
    + cbn [app].
      replace (nth_error (pre ++ P t :: y :: sect ++ rest) (S (List.length pre)))
        with (Some y)
        by (rewrite (snoc_app pre (P t)), <- (length_snoc pre (P t));
            symmetry; apply nth_error_middle).
      (* two nodes forward *)
      assert (Step2 : forall content,
        exists idx,
          review_walk fuel (pre ++ P t :: y :: sect ++ rest) (S (S (List.length pre)))
            (cards ++ [ReviewCard key content])
            (removeList ++ [S (List.length pre); List.length pre])
          = Some (cards ++ ReviewCard key content :: review_cards sect,
                  removeList ++ idx)
          /\ forall i, In i idx
             <-> (List.length pre <= i
                  < List.length pre + S (S (List.length sect)))%nat).
      { intros content. cbn [forallb] in Hsect.
        apply andb_true_iff in Hsect as [_ Hsect'].
        destruct (IH sect ltac:(simpl in Hn; lia) (pre ++ [P t; y]) fuel
                    (cards ++ [ReviewCard key content])
                    (removeList ++ [S (List.length pre); List.length pre])
                    Hsect' Hend ltac:(simpl in Hfuel; lia))
          as (idx & E & Hidx).
        replace ((pre ++ [P t; y]) ++ sect ++ rest)
          with (pre ++ P t :: y :: sect ++ rest) in E
          by (rewrite <- app_assoc; reflexivity).
        replace (List.length (pre ++ [P t; y])) with (S (S (List.length pre))) in *
          by (rewrite length_app; simpl; lia).
        exists (S (List.length pre) :: List.length pre :: idx).
        rewrite E, <- !app_assoc. split; [reflexivity|].
        intros i. simpl. rewrite Hidx. lia. }
      destruct y;
        try (destruct (Step1 (cards ++ [ReviewCard key NoContent]))
               as (idx & E & Hidx); exists idx; split; [|exact Hidx];
             rewrite <- app_assoc in E; exact E).
      * destruct (Step2 (ParaContent (Js.trim text))) as (idx & E & Hidx).
        exists idx. split; [exact E | simpl; exact Hidx].
      * destruct (Step2 (ListContent items)) as (idx & E & Hidx).
        exists idx. split; [exact E | simpl; exact Hidx].
Qed.

(** The market-review scan on a document cut at its anchor and at the end of the
    section of the anchor. *)
Lemma review_scan_section pre t sect rest :
  find_h3 pat_review pre = None -> contains pat_review t = true ->
  sect <> [] ->
  forallb (fun x => negb (is_h3 x)) sect = true ->
  section_end rest = true ->
  review_scan (pre ++ H3 t :: sect ++ rest)
  = Some (pre ++ H3 t :: SECTION (review_cards sect) :: rest).
Proof.
  intros Hpre Ht Hne Hsect Hend. unfold review_scan, find_h3.
  rewrite (find_h3_from_app _ _ _ _ _ Hpre Ht). cbn [Nat.add].
  rewrite (snoc_app pre (H3 t)), <- (length_snoc pre (H3 t)).
  destruct (review_walk_cards rest (List.length sect) sect ltac:(lia)
              (pre ++ [H3 t]) (S (List.length ((pre ++ [H3 t]) ++ sect ++ rest)))
              [] [] Hsect Hend ltac:(rewrite !length_app; lia))
    as (idx & E & Hidx).
  rewrite E. cbn [app]. rewrite (replace_removed_range idx _ _ _ _ Hne Hidx).
  rewrite <- app_assoc. reflexivity.
Qed.

(** X10.  The market-review scan replaces the whole section under its
    heading (the nodes up to the next level-3 heading or the end) by one
    container that holds the cards of the section, in order; the nodes
    outside the section stay as they are, wherever in the section the
    container was inserted. *)
Theorem review_section_replaced_by_cards pre t sect rest :
  find_h3 pat_review pre = None -> contains pat_review t = true ->
  sect <> [] ->
  forallb (fun x => negb (is_h3 x)) sect = true ->
  section_end rest = true ->
  review_scan (pre ++ H3 t :: sect ++ rest)
  = Some (pre ++ H3 t :: SECTION (review_cards sect) :: rest).
Proof. apply review_scan_section. Qed.

Lemma review_section_replaced_by_cards_witness :
  review_scan [P (lit "前言"); H3 (lit "大盘复盘");
               P (lit "趋势：震荡上行"); UL [lit "量能放大"];
               H4 (lit "补充"); P (lit "情绪偏乐观"); P (lit "风险偏好回升");
               H3 (lit "风险提示"); P (lit "汇率")]
  = Some [P (lit "前言"); H3 (lit "大盘复盘");
          SECTION [ReviewCard (lit "趋势") (ListContent [lit "量能放大"]);
                   ReviewCard (lit "情绪") (ParaContent (lit "风险偏好回升"))];
          H3 (lit "风险提示"); P (lit "汇率")].
Proof.
  exact (review_section_replaced_by_cards [P (lit "前言")] (lit "大盘复盘")
           [P (lit "趋势：震荡上行"); UL [lit "量能放大"];
            H4 (lit "补充"); P (lit "情绪偏乐观"); P (lit "风险偏好回升")]
           [H3 (lit "风险提示"); P (lit "汇率")]
           eq_refl eq_refl ltac:(discriminate) eq_refl eq_refl).
Defined.

Lemma skipn_past {A} (pre : list A) x tail :
  skipn (S (List.length pre)) (pre ++ x :: tail) = tail.
Proof. induction pre as [|y pre IH]; [reflexivity | exact IH]. Qed.

(** The inner loop over a section: it reads the paragraphs up to the next
    list, and puts every node it passes on the removal list. *)
Lemma collect_fields_section rest titleText : forall sect f toRemove i,
  forallb (fun x => negb (is_h3 x)) sect = true ->
  section_end rest = true ->
  exists mid tail f',
    sect = mid ++ tail
    /\ collect_fields f toRemove i (sect ++ rest)
       = (f', toRemove ++ seq i (List.length mid), (i + List.length mid)%nat)
    /\ (tail = [] \/ exists items more, tail = UL items :: more)
    /\ priority_cards (Some (titleText, f)) sect
       = priority_cards (Some (titleText, f')) tail.
Proof.
  induction sect as [|x sect IH]; intros f toRemove i Hsect Hend.
  - exists [], [], f. cbn [app List.length seq]. rewrite app_nil_r, Nat.add_0_r.
    repeat split; auto.
    destruct rest as [|[] rest]; try discriminate; reflexivity.
  - cbn [forallb] in Hsect. apply andb_true_iff in Hsect as [Hx Hsect].
    assert (Pass : forall f1,
      priority_cards (Some (titleText, f)) (x :: sect)
        = priority_cards (Some (titleText, f1)) sect ->
      collect_fields f toRemove i ((x :: sect) ++ rest)
        = collect_fields f1 (toRemove ++ [i]) (S i) (sect ++ rest) ->
      exists mid tail f',
        x :: sect = mid ++ tail
        /\ collect_fields f toRemove i ((x :: sect) ++ rest)
           = (f', toRemove ++ seq i (List.length mid), (i + List.length mid)%nat)
        /\ (tail = [] \/ exists items more, tail = UL items :: more)
        /\ priority_cards (Some (titleText, f)) (x :: sect)
           = priority_cards (Some (titleText, f')) tail).
    { intros f1 Hcards Hcollect.
      destruct (IH f1 (toRemove ++ [i]) (S i) Hsect Hend)
        as (mid & tail & f' & -> & E & Htail & Hc).
      exists (x :: mid), tail, f'. rewrite Hcollect, Hcards, E, <- app_assoc.
      cbn [List.length seq app]. rewrite Nat.add_succ_r. repeat split; auto. }
    destruct x; try discriminate;
      try (apply (Pass f); reflexivity).
    + apply (Pass (paragraph_field f (Js.trim text))); reflexivity.
    + exists [], (UL items :: sect), f. cbn [app List.length seq].
      rewrite app_nil_r, Nat.add_0_r. repeat split; eauto.
Qed.

Lemma priority_cards_after_item titleText f tail :
  tail = [] \/ (exists items more, tail = UL items :: more) ->
  priority_cards (Some (titleText, f)) tail
  = item_card (Some (titleText, f)) ++ priority_cards None tail.
Proof.
  intros [-> | (items & more & ->)].
  - cbn [priority_cards item_card]. rewrite app_nil_r. reflexivity.
  - reflexivity.
Qed.

(** The walk of the priority scan over a section: the cards of the section,
    and every position of the section on the removal list. *)
Lemma priority_walk_cards rest n : forall sect,
  (List.length sect <= n)%nat ->
  forall pre fuel cards toRemove,
  forallb (fun x => negb (is_h3 x)) sect = true ->
  section_end rest = true -> (List.length sect < fuel)%nat ->
  exists idx,
    priority_walk fuel (pre ++ sect ++ rest) (List.length pre) cards toRemove
    = Some (cards ++ priority_cards None sect, toRemove ++ idx)
    /\ forall i, In i idx
                 <-> (List.length pre <= i < List.length pre + List.length sect)%nat.
Proof.
  induction n as [|n IH]; intros sect Hn pre fuel cards toRemove Hsect Hend Hfuel.
  - destruct sect; [|simpl in Hn; lia].
    destruct fuel as [|fuel]; [lia|]. cbn [priority_walk app].
    pose proof (nth_error_past_section pre rest Hend) as Hpast.
    exists []. cbn [priority_cards item_card]. rewrite !app_nil_r.
    split; [|simpl; intros i; lia].
    destruct (nth_error (pre ++ rest) (List.length pre)) as [[]|];
      try discriminate; reflexivity.
  - destruct sect as [|x sect].
    { apply (IH [] ltac:(simpl; lia) pre fuel cards toRemove); auto. }
    destruct fuel as [|fuel]; [simpl in Hfuel; lia|].
    simpl in Hn, Hfuel. cbn [forallb] in Hsect.
    apply andb_true_iff in Hsect as [Hx Hsect].
    assert (Step1 :
      exists idx,
        priority_walk fuel (pre ++ x :: sect ++ rest) (S (List.length pre)) cards
          (toRemove ++ [List.length pre])
        = Some (cards ++ priority_cards None sect, toRemove ++ idx)
        /\ forall i, In i idx
           <-> (List.length pre <= i < List.length pre + S (List.length sect))%nat).
    { destruct (IH sect ltac:(lia) (pre ++ [x]) fuel cards
                  (toRemove ++ [List.length pre]) Hsect Hend ltac:(lia))
        as (idx & E & Hidx).
      rewrite <- snoc_app, length_snoc in E. rewrite length_snoc in Hidx.
      exists (List.length pre :: idx). rewrite E, <- app_assoc. split; [reflexivity|].
      intros i. simpl. rewrite Hidx. lia. }
    cbn [priority_walk app]. rewrite nth_error_middle.
    destruct x as [| | |items| | | |]; try discriminate;
      try (destruct Step1 as (idx & E & Hidx); exists idx; split;
           [exact E | exact Hidx]).
    cbv zeta. cbn [priority_cards item_card app].
    change (match items with [] => [] | li :: _ => Js.trim li end)
      with (title_text items).
    destruct (startswith lbl_title (title_text items));
      [|destruct Step1 as (idx & E & Hidx); exists idx; split;
        [exact E | exact Hidx]].
    rewrite skipn_past.
    destruct (collect_fields_section rest (title_text items) sect no_fields toRemove
                (S (List.length pre)) Hsect Hend)
      as (mid & tail & f' & Hsplit & Ecollect & Htail & Hcards).
    rewrite Ecollect, Hcards, (priority_cards_after_item _ _ _ Htail).
    subst sect. rewrite forallb_app in Hsect.
    apply andb_true_iff in Hsect as [_ Htail_h3].
    rewrite length_app in Hn, Hfuel.
    destruct (IH tail ltac:(lia) (pre ++ UL items :: mid) fuel
                (cards ++ item_card (Some (title_text items, f')))
                ((toRemove ++ seq (S (List.length pre)) (List.length mid))
                 ++ [List.length pre])
                Htail_h3 Hend ltac:(lia))
      as (idx & E & Hidx).
    replace ((pre ++ UL items :: mid) ++ tail ++ rest)
      with (pre ++ UL items :: (mid ++ tail) ++ rest) in E
      by (rewrite <- !app_assoc; reflexivity).
    replace (List.length (pre ++ UL items :: mid))
      with (S (List.length pre) + List.length mid)%nat in *
      by (rewrite length_app; simpl; lia).
    exists (seq (S (List.length pre)) (List.length mid) ++ List.length pre :: idx).
    split.
    + cbn [item_card] in *. rewrite E, <- !app_assoc. reflexivity.
    + intros i. rewrite in_app_iff, in_seq. cbn [List.length].
      rewrite length_app. simpl. rewrite Hidx. lia.
Qed.

(** The priority scan on a document cut at its anchor and at the end of the
    section of the anchor. *)
Lemma priority_scan_section pre t sect rest :
  find_h3 pat_priority pre = None -> contains pat_priority t = true ->
  sect <> [] ->
  forallb (fun x => negb (is_h3 x)) sect = true ->
  section_end rest = true ->
  priority_scan (pre ++ H3 t :: sect ++ rest)
  = Some (pre ++ H3 t :: SECTION (priority_cards None sect) :: rest).
Proof.
  intros Hpre Ht Hne Hsect Hend. unfold priority_scan, find_h3.
  rewrite (find_h3_from_app _ _ _ _ _ Hpre Ht). cbn [Nat.add].
  rewrite (snoc_app pre (H3 t)), <- (length_snoc pre (H3 t)).
  destruct (priority_walk_cards rest (List.length sect) sect ltac:(lia)
              (pre ++ [H3 t]) (S (List.length ((pre ++ [H3 t]) ++ sect ++ rest)))
              [] [] Hsect Hend ltac:(rewrite !length_app; lia))
    as (idx & E & Hidx).
  rewrite E. cbn [app]. rewrite (replace_removed_range idx _ _ _ _ Hne Hidx).
  rewrite <- app_assoc. reflexivity.
Qed.

(** X11.  The priority scan replaces the whole section under its heading by
    one container that holds the cards of the section, in order: one card
    per title list, filled from the paragraphs that follow the list up to
    the next list; the nodes outside the section stay as they are. *)
Theorem priority_section_replaced_by_cards pre t sect rest :
  find_h3 pat_priority pre = None -> contains pat_priority t = true ->
  sect <> [] ->
  forallb (fun x => negb (is_h3 x)) sect = true ->
  section_end rest = true ->
  priority_scan (pre ++ H3 t :: sect ++ rest)
  = Some (pre ++ H3 t :: SECTION (priority_cards None sect) :: rest).
Proof. apply priority_scan_section. Qed.

Lemma priority_section_replaced_by_cards_witness :
  priority_scan [H3 (lit "优先级筛选");
                 P (lit "说明");
                 UL [lit "标题：降息预期升温"]; P (lit "紧迫度：高"); HR;
                 P (lit "置信度 80");
                 UL [lit "标题 汇率波动"; lit "紧迫度：低"];
                 UL [lit "其他"];
                 H3 (lit "大盘复盘")]
  = Some [H3 (lit "优先级筛选");
          SECTION [PriorityCard (lit "降息预期升温") (lit "高") (lit "80") [] [];
                   PriorityCard (lit "汇率波动") dash dash [] []];
          H3 (lit "大盘复盘")].
Proof.
  exact (priority_section_replaced_by_cards [] (lit "优先级筛选")
           [P (lit "说明");
            UL [lit "标题：降息预期升温"]; P (lit "紧迫度：高"); HR;
            P (lit "置信度 80");
            UL [lit "标题 汇率波动"; lit "紧迫度：低"];
            UL [lit "其他"]]
           [H3 (lit "大盘复盘")]
           eq_refl eq_refl ltac:(discriminate) eq_refl eq_refl).
Defined.

(** ** What the pass keeps *)

Lemma list_pair_ind {A} (Q : list A -> Prop) :
  Q [] -> (forall x l, Q l -> Q (tl l) -> Q (x :: l)) -> forall l, Q l.
Proof.
  intros Hnil Hcons l.
  assert (H : Q l /\ Q (tl l)); [|exact (proj1 H)].
  induction l as [|x l [IH1 IH2]]; simpl; auto.
Qed.

Lemma scan_keeps_refl kids : scan_keeps kids kids.
Proof. unfold scan_keeps. auto. Qed.

Lemma scan_keeps_trans a b c : scan_keeps a b -> scan_keeps b c -> scan_keeps a c.
Proof.
  unfold scan_keeps. intros (H1 & L1 & F1) (H2 & L2 & F2).
  repeat split; [congruence | lia | auto].
Qed.

Lemma scan_keeps_cons x kids result :
  scan_keeps kids result -> scan_keeps (x :: kids) (x :: result).
Proof.
  unfold scan_keeps. intros (H & L & F). repeat split.
  - simpl. rewrite H. reflexivity.
  - simpl. lia.
  - intros Hall. inversion Hall; subst. constructor; auto.
Qed.

Lemma scan_keeps_pair t items c kids result :
  card_filled c -> scan_keeps kids result ->
  scan_keeps (P t :: UL items :: kids) (CARD c :: result).
Proof.
  unfold scan_keeps. intros Hc (H & L & F). repeat split.
  - simpl. exact H.
  - simpl. lia.
  - intros Hall. inversion Hall as [|? ? _ Hall']; subst.
    inversion Hall'; subst. constructor; auto.
Qed.

Lemma first_truthy_nonempty cands d : d <> [] -> Js.first_truthy cands d <> [].
Proof.
  intros Hd. induction cands as [|[[|x v]|] cands IH]; simpl; auto.
Qed.

Lemma priority_card_filled f : card_filled (priority_card f).
Proof.
  unfold priority_card, card_filled, Js.or_else.
  repeat split; apply first_truthy_nonempty; discriminate.
Qed.

Lemma event_card_filled headers cells : card_filled (event_card headers cells).
Proof.
  unfold event_card, card_filled, Js.or_else.
  repeat split; apply first_truthy_nonempty; discriminate.
Qed.

Lemma section_title_nonempty t :
  includes cardSectionTitles t = true -> drop_final_colon t <> [].
Proof.
  intros H. apply includes_In in H. simpl in H.
  repeat destruct H as [<- | H]; try discriminate. contradiction.
Qed.

Lemma priority_label_scan_keeps kids : scan_keeps kids (priority_label_scan kids).
Proof.
  induction kids as [|x l IH1 IH2] using list_pair_ind; [apply scan_keeps_refl|].
  destruct x; cbn [priority_label_scan]; try (apply scan_keeps_cons, IH1).
  destruct (includes priorityLabels (Js.trim text));
    [|apply scan_keeps_cons, IH1].
  destruct l as [|[] rest]; try (apply scan_keeps_cons, IH1).
  apply scan_keeps_pair; [apply priority_card_filled | exact IH2].
Qed.

Lemma thematic_scan_keeps kids : scan_keeps kids (thematic_scan kids).
Proof.
  induction kids as [|x l IH1 IH2] using list_pair_ind; [apply scan_keeps_refl|].
  destruct x; cbn [thematic_scan]; try (apply scan_keeps_cons, IH1).
  destruct (includes cardSectionTitles (Js.trim text)) eqn:E;
    [|apply scan_keeps_cons, IH1].
  destruct l as [|[] rest]; try (apply scan_keeps_cons, IH1).
  apply scan_keeps_pair; [apply section_title_nonempty, E | exact IH2].
Qed.

Lemma event_table_scan_keeps kids : scan_keeps kids (event_table_scan kids).
Proof.
  induction kids as [|x kids IH]; [apply scan_keeps_refl|].
  destruct x; cbn [event_table_scan]; try (apply scan_keeps_cons, IH).
  unfold scan_keeps. repeat split; auto.
  intros Hall. inversion Hall; subst. constructor; [|assumption].
  cbn [node_filled]. unfold table_cards. apply List.Forall_forall.
  intros c Hin. apply in_map_iff in Hin as (tr & <- & _). apply event_card_filled.
Qed.

Lemma find_h3_from_split pat : forall kids i h,
  find_h3_from pat i kids = Some h ->
  exists pre t tail,
    kids = pre ++ H3 t :: tail
    /\ find_h3_from pat i pre = None /\ contains pat t = true.
Proof.
  induction kids as [|x kids IH]; intros i h H; [discriminate|].
  assert (Skip : find_h3_from pat (S i) kids = Some h ->
                 find_h3_from pat i [x] = None ->
                 exists pre t tail,
                   x :: kids = pre ++ H3 t :: tail
                   /\ find_h3_from pat i pre = None /\ contains pat t = true).
  { intros Hk Hx. destruct (IH _ _ Hk) as (pre & t & tail & -> & Hpre & Ht).
    exists (x :: pre), t, tail. repeat split; auto.
    destruct x; simpl in *; auto.
    destruct (contains pat text); [discriminate | exact Hpre]. }
  destruct x; try (apply Skip; [exact H | reflexivity]).
  cbn [find_h3_from] in H. destruct (contains pat text) eqn:E.
  - exists [], text, kids. auto.
  - apply Skip; [exact H | simpl; rewrite E; reflexivity].
Qed.

Lemma section_split tail :
  exists sect rest,
    tail = sect ++ rest
    /\ forallb (fun x => negb (is_h3 x)) sect = true /\ section_end rest = true.
Proof.
  induction tail as [|x tail (sect & rest & -> & Hsect & Hend)].
  - exists [], []. auto.
  - destruct (is_h3 x) eqn:E.
    + exists [], (x :: sect ++ rest). auto.
    + exists (x :: sect), rest. simpl. rewrite E. auto.
Qed.

Lemma filter_h3_section sect :
  forallb (fun x => negb (is_h3 x)) sect = true -> List.filter is_h3 sect = [].
Proof.
  induction sect as [|x sect IH]; [reflexivity|]. simpl. intros H.
  apply andb_true_iff in H as [Hx Hsect]. apply negb_true_iff in Hx.
  rewrite Hx. auto.
Qed.

Lemma scan_keeps_section pre t sect rest cards :
  sect <> [] -> forallb (fun x => negb (is_h3 x)) sect = true ->
  Forall card_filled cards ->
  scan_keeps (pre ++ H3 t :: sect ++ rest) (pre ++ H3 t :: SECTION cards :: rest).
Proof.
  intros Hne Hsect Hcards. unfold scan_keeps. repeat split.
  - rewrite !List.filter_app. cbn [List.filter is_h3].
    rewrite List.filter_app, (filter_h3_section _ Hsect). reflexivity.
  - rewrite !length_app. cbn [List.length]. rewrite length_app.
    destruct sect; [congruence|]. simpl. lia.
  - intros Hall. apply Forall_app in Hall as [Hpre Hall].
    inversion Hall as [|? ? Hh Hall']; subst.
    apply Forall_app in Hall' as [_ Hrest].
    apply Forall_app. split; [exact Hpre|].
    constructor; [exact Hh|]. constructor; [exact Hcards | exact Hrest].
Qed.

Lemma item_card_filled open : Forall card_filled (item_card open).
Proof.
  destruct open as [[titleText f]|]; cbn [item_card]; repeat constructor;
    apply priority_card_filled || (apply first_truthy_nonempty; discriminate).
Qed.

Lemma priority_cards_filled sect : forall open,
  Forall card_filled (priority_cards open sect).
Proof.
  induction sect as [|x sect IH]; intros open; cbn [priority_cards].
  - apply item_card_filled.
  - destruct x; auto.
    + destruct open as [[titleText f]|]; auto.
    + apply Forall_app. split; [apply item_card_filled|].
      destruct (startswith lbl_title (title_text items)); auto.
Qed.

Lemma find_key_nonempty t key : find_key t = Some key -> key <> [].
Proof.
  unfold find_key. intros H. apply find_some in H as [Hin _].
  simpl in Hin. repeat destruct Hin as [<- | Hin]; try discriminate. contradiction.
Qed.

Lemma review_cards_filled sect : Forall card_filled (review_cards sect).
Proof.
  induction sect as [|x l IH1 IH2] using list_pair_ind; [constructor|].
  destruct x; cbn [review_cards]; auto.
  destruct (find_key (Js.trim text)) as [key|] eqn:E; auto.
  pose proof (find_key_nonempty _ _ E) as Hkey.
  destruct l as [|[] rest]; constructor; auto.
Qed.

Lemma anchor_idle_at pat pre t rest :
  find_h3 pat pre = None -> contains pat t = true -> section_end rest = true ->
  anchor_idle pat (pre ++ H3 t :: rest) = true.
Proof.
  intros Hpre Ht Hend. unfold anchor_idle, find_h3.
  rewrite (find_h3_from_app _ _ _ _ _ Hpre Ht). cbn [Nat.add].
  pose proof (nth_error_past_section (pre ++ [H3 t]) rest Hend) as Hpast.
  rewrite <- snoc_app, length_snoc in Hpast.
  destruct (nth_error (pre ++ H3 t :: rest) (S (List.length pre))); auto.
Qed.

Lemma priority_scan_keeps kids :
  exists result, priority_scan kids = Some result /\ scan_keeps kids result.
Proof.
  destruct (find_h3 pat_priority kids) as [h|] eqn:F.
  - destruct (find_h3_from_split _ _ _ _ F) as (pre & t & tail & -> & Hpre & Ht).
    destruct (section_split tail) as (sect & rest & -> & Hsect & Hend).
    destruct sect as [|x sect].
    + eexists. split; [|apply scan_keeps_refl].
      apply priority_scan_idle, anchor_idle_at; auto.
    + eexists. split.
      * apply priority_scan_section; auto; discriminate.
      * apply scan_keeps_section; auto; try discriminate.
        apply priority_cards_filled.
  - exists kids. split; [|apply scan_keeps_refl].
    unfold priority_scan. rewrite F. reflexivity.
Qed.

Lemma review_scan_keeps kids :
  exists result, review_scan kids = Some result /\ scan_keeps kids result.
Proof.
  destruct (find_h3 pat_review kids) as [h|] eqn:F.
  - destruct (find_h3_from_split _ _ _ _ F) as (pre & t & tail & -> & Hpre & Ht).
    destruct (section_split tail) as (sect & rest & -> & Hsect & Hend).
    destruct sect as [|x sect].
    + eexists. split; [|apply scan_keeps_refl].
      apply review_scan_idle, anchor_idle_at; auto.
    + eexists. split.
      * apply review_scan_section; auto; discriminate.
      * apply scan_keeps_section; auto; try discriminate.
        apply review_cards_filled.
  - exists kids. split; [|apply scan_keeps_refl].
    unfold review_scan. rewrite F. reflexivity.
Qed.

Lemma cardify_keeps kids :
  exists result, cardify kids = Some result /\ scan_keeps kids result.
Proof.
  unfold cardify.
  destruct (priority_scan_keeps
              (event_table_scan (thematic_scan (priority_label_scan kids))))
    as (kids4 & -> & K4).
  destruct (review_scan_keeps kids4) as (kids5 & -> & K5).
  exists kids5. split; [reflexivity|].
  eapply scan_keeps_trans; [apply priority_label_scan_keeps|].
  eapply scan_keeps_trans; [apply thematic_scan_keeps|].
  eapply scan_keeps_trans; [apply event_table_scan_keeps|].
  eapply scan_keeps_trans; eassumption.
Qed.

(** X12.  The pass never removes, adds or reorders a level-3 heading: the
    level-3 headings of the result are those of the document, in order. *)
Theorem cardify_keeps_level3_headings (kids : list node) :
  exists result,
    cardify kids = Some result
    /\ List.filter is_h3 result = List.filter is_h3 kids.
Proof.
  destruct (cardify_keeps kids) as (result & E & H & _).
  exists result. auto.
Qed.

(** X13.  The pass never makes the document longer: every scan replaces
    nodes by at most as many nodes. *)
Theorem cardify_does_not_grow (kids : list node) :
  exists result,
    cardify kids = Some result
    /\ (List.length result <= List.length kids)%nat.
Proof.
  destruct (cardify_keeps kids) as (result & E & _ & L & _).
  exists result. auto.
Qed.

(** X14.  Every card the pass builds is given a title that is not the empty
    string, and a priority or event card two metadata values that are not
    the empty string: where the document gives no value the script
    interpolates its placeholder.  This holds for every document whose
    cards, if it has any, are already so. *)
Theorem cards_show_no_empty_field (kids : list node) :
  Forall node_filled kids ->
  exists result,
    cardify kids = Some result
    /\ Forall node_filled result.
Proof.
  intros Hkids.
  destruct (cardify_keeps kids) as (result & E & _ & _ & F).
  exists result. split; [exact E|]. apply F, Hkids.
Qed.

Lemma cards_show_no_empty_field_witness :
  exists result,
    cardify [H3 (lit "优先级筛选"); UL [lit "标题："]; P (lit "紧迫度：");
             TABLE event_header [[[]; []; lit "偏多"]]] = Some result
    /\ Forall node_filled result.
Proof.
  apply (cards_show_no_empty_field
           [H3 (lit "优先级筛选"); UL [lit "标题："]; P (lit "紧迫度：");
            TABLE event_header [[[]; []; lit "偏多"]]]).
  repeat constructor.
Defined.

(** * Further properties of the functions around the renderer *)

(** ** The API key: [load_deepseek_api_key] *)

Lemma split_once_equals s :
  existsb (N.eqb equals_sign) s = true ->
  split_once equals_sign s = [before_equals s; after_equals s].
Proof.
  induction s as [|c t IH]; cbn [existsb split_once before_equals after_equals].
  - discriminate.
  - rewrite (N.eqb_sym equals_sign c).
    destruct (c =? equals_sign) eqn:E; cbn [orb]; [reflexivity|].
    intros H. rewrite (IH H). reflexivity.
Qed.

Lemma strip_empty_no_assignment raw :
  nonempty (Py.strip raw) = false -> assignment raw = None.
Proof.
  unfold assignment. destruct (Py.strip raw) as [|c l]; [reflexivity|discriminate].
Qed.

(** One turn of the loop over the lines of the file. The unpacking of
    [line.split("=", 1)] never fails, since the line holds a [=]. *)
Lemma scan_env_lines_cons raw rest :
  scan_env_lines (raw :: rest) =
  match assignment raw with
  | Some (k, v) => if includes candidates k then Py.Ok (Some v) else scan_env_lines rest
  | None => scan_env_lines rest
  end.
Proof.
  cbn [scan_env_lines]. cbv zeta.
  destruct (nonempty (Py.strip raw)) eqn:Hn; cbn [negb orb].
  - unfold assignment.
    destruct (startswith [hash_sign] (Py.strip raw)); [reflexivity|].
    destruct (existsb (N.eqb equals_sign) (Py.strip raw)) eqn:He; [|reflexivity].
    rewrite (split_once_equals _ He). reflexivity.
  - rewrite (strip_empty_no_assignment _ Hn). reflexivity.
Qed.

Lemma scan_env_lines_file_key lines :
  scan_env_lines lines = Py.Ok (file_key lines).
Proof.
  induction lines as [|raw rest IH]; [reflexivity|].
  rewrite scan_env_lines_cons. unfold file_key. cbn [find]. unfold assigns_key.
  destruct (assignment raw) as [[k v]|] eqn:Ea.
  - destruct (includes candidates k); [rewrite Ea; reflexivity|exact IH].
  - exact IH.
Qed.

(** X15. The loop over the lines of the environment file never raises, and
    what it finds is the value of the first line that assigns
    [deepseek_API_KEY] or [DEEPSEEK_API_KEY]: its text after the first [=],
    without surrounding white space. Blank lines, comments, lines without
    [=] and assignments of other names are passed over, and no line after
    that first assignment is read. *)
Theorem first_assignment_decides lines :
  scan_env_lines lines = Py.Ok (file_key lines).
Proof. exact (scan_env_lines_file_key lines). Qed.

(** X16. When [env_path.exists()] raises, which it does outside the [try],
    that exception leaves the function.  Otherwise the key is the first
    non-empty value among: the value the file gives (nothing when the file
    is missing or reading it raises), the environment variable
    [deepseek_API_KEY], the environment variable [DEEPSEEK_API_KEY]; when
    none of the three is present and not empty the function raises
    [RuntimeError].  In particular an empty value in the file does not stop
    the search, and a returned key is never empty. *)
Theorem api_key_precedence (file : env_file) (environ : gmap (list N) (list N)) :
  load_deepseek_api_key file environ =
  match file with
  | ExistsRaises e => Py.Raise e
  | _ => first_usable [file_value file; environ !! env_name_mixed;
                       environ !! env_name_upper]
  end.
Proof.
  unfold load_deepseek_api_key, file_value.
  change candidates with [env_name_mixed; env_name_upper].
  destruct file as [e| |e|text]; cbn [path_exists read_text Py.bind];
    [reflexivity| | |rewrite scan_env_lines_file_key;
                     generalize (file_key (Py.splitlines text)); intros found].
  3: destruct found as [[|c v]|].
  all: cbn [py_truthy negb scan_environ first_usable];
    destruct (environ !! env_name_mixed) as [[|c1 v1]|];
    cbn [py_truthy negb scan_environ first_usable];
    destruct (environ !! env_name_upper) as [[|c2 v2]|]; reflexivity.
Qed.

Lemma In_strip (c : char) s : In c (Py.strip s) -> In c s.
Proof.
  unfold Py.strip, Py.lstrip, Py.rstrip. intros H. apply In_lstrip_by in H.
  destruct (rstrip_by_prefix Py.isspace s) as [b Hb].
  rewrite <- Hb. apply in_or_app. left. exact H.
Qed.

Lemma existsb_equals_In s : existsb (N.eqb equals_sign) s = true <-> In equals_sign s.
Proof.
  rewrite existsb_exists. split.
  - intros (x & Hx & E). apply N.eqb_eq in E. subst. exact Hx.
  - intros H. exists equals_sign. split; [exact H|apply N.eqb_refl].
Qed.

Lemma ignorable_no_assignment raw :
  Py.strip raw = [] \/ startswith [hash_sign] (Py.strip raw) = true
  \/ ~ In equals_sign raw ->
  assignment raw = None.
Proof.
  unfold assignment. intros [H|[H|H]].
  - rewrite H. reflexivity.
  - rewrite H. reflexivity.
  - destruct (startswith [hash_sign] (Py.strip raw)); [reflexivity|].
    destruct (existsb (N.eqb equals_sign) (Py.strip raw)) eqn:E; [|reflexivity].
    exfalso. apply H, In_strip, existsb_equals_In, E.
Qed.

Lemma scan_env_lines_skip before raw after :
  assigns_key raw = false ->
  scan_env_lines (before ++ raw :: after) = scan_env_lines (before ++ after).
Proof.
  intros H. induction before as [|x before IH]; cbn [app].
  - rewrite scan_env_lines_cons. unfold assigns_key in H.
    destruct (assignment raw) as [[k v]|]; [rewrite H|]; reflexivity.
  - rewrite !scan_env_lines_cons, IH. reflexivity.
Qed.

(** X17. A line that is blank, or that starts with [#] after its leading
    white space, or that holds no [=], can be added to the file or removed
    from it at any place without changing what the file gives; a comment
    that mentions the key assigns nothing. *)
Theorem blank_comment_and_plain_lines_are_skipped before raw after :
  Py.strip raw = [] \/ startswith [hash_sign] (Py.strip raw) = true
  \/ ~ In equals_sign raw ->
  scan_env_lines (before ++ raw :: after) = scan_env_lines (before ++ after).
Proof.
  intros H. apply scan_env_lines_skip. unfold assigns_key.
  rewrite (ignorable_no_assignment _ H). reflexivity.
Qed.

Lemma blank_comment_and_plain_lines_are_skipped_witness :
  startswith [hash_sign] (Py.strip (lit "  # deepseek_API_KEY=old")) = true
  /\ scan_env_lines ([lit "x"] ++ lit "  # deepseek_API_KEY=old"
                     :: [lit "deepseek_API_KEY = k1 "])
     = scan_env_lines ([lit "x"] ++ [lit "deepseek_API_KEY = k1 "]).
Proof.
  split; [reflexivity|].
  apply (blank_comment_and_plain_lines_are_skipped
           [lit "x"] (lit "  # deepseek_API_KEY=old") [lit "deepseek_API_KEY = k1 "]).
  right. left. reflexivity.
Defined.

Lemma rstrip_by_app_kept f a (c : char) s :
  f c = false -> rstrip_by f (a ++ c :: s) = a ++ c :: rstrip_by f s.
Proof.
  intros Hc. induction a as [|x a IH]; cbn [app rstrip_by].
  - rewrite Hc. destruct (rstrip_by f s); reflexivity.
  - rewrite IH. destruct a; reflexivity.
Qed.

Lemma strip_key_line name value :
  In name candidates ->
  Py.strip (name ++ equals_sign :: value) = name ++ equals_sign :: Py.rstrip value.
Proof.
  intros Hin. unfold Py.strip, Py.rstrip.
  rewrite rstrip_by_app_kept by reflexivity.
  destruct Hin as [<-|[<-|[]]]; reflexivity.
Qed.

(** X18. When the first line of the file is one of the two names followed
    by [=] and a value, the file gives that value without its surrounding
    white space, whatever the value is and whatever the later lines are: a
    later assignment never replaces it, also when the value is empty. *)
Theorem key_line_gives_trimmed_value name value after :
  In name candidates ->
  scan_env_lines ((name ++ equals_sign :: value) :: after) = Py.Ok (Some (Py.strip value)).
Proof.
  intros Hin. rewrite scan_env_lines_cons. unfold assignment.
  rewrite (strip_key_line _ _ Hin), <- (strip_rstrip value).
  generalize (Py.rstrip value). intros v.
  destruct Hin as [<-|[<-|[]]]; reflexivity.
Qed.

Lemma key_line_gives_trimmed_value_witness :
  In (lit "DEEPSEEK_API_KEY") candidates
  /\ scan_env_lines ((lit "DEEPSEEK_API_KEY" ++ equals_sign :: lit " sk-1 ")
                     :: [lit "deepseek_API_KEY=sk-2"])
     = Py.Ok (Some (Py.strip (lit " sk-1 "))).
Proof.
  assert (Hin : In (lit "DEEPSEEK_API_KEY") candidates) by (right; left; reflexivity).
  split; [exact Hin|].
  exact (key_line_gives_trimmed_value (lit "DEEPSEEK_API_KEY") (lit " sk-1 ")
           [lit "deepseek_API_KEY=sk-2"] Hin).
Defined.

(** ** One line of a file: [read_line_text] *)

Lemma getitem_int_in_range {A} (l : list A) (i : Z) (d : A) :
  (0 <= i < Z.of_nat (List.length l))%Z ->
  getitem_int l i = Py.Ok (nth (Z.to_nat i) l d).
Proof.
  intros H. unfold getitem_int.
  replace (0 <=? i)%Z with true by (symmetry; apply Z.leb_le; lia).
  replace (i <? Z.of_nat (List.length l))%Z with true by (symmetry; apply Z.ltb_lt; lia).
  cbn [andb]. unfold Py.getitem.
  destruct (nth_error l (Z.to_nat i)) eqn:E.
  - rewrite (nth_error_nth _ _ d E). reflexivity.
  - apply nth_error_None in E. lia.
Qed.

(** X19. Lines are counted from 1: for a number between 1 and the number of
    lines of the text the result is that line without its surrounding white
    space; for every other number, zero and the negative ones included, the
    function raises [ValueError]. The subscript never raises [IndexError]
    and never counts from the end of the file. *)
Theorem read_line_text_bounds text (line_number : Z) :
  read_line_text text line_number =
  if ((1 <=? line_number)
      && (line_number <=? Z.of_nat (List.length (Py.splitlines text))))%Z
  then Py.Ok (Py.strip (nth (Z.to_nat (line_number - 1)) (Py.splitlines text) []))
  else Py.Raise Py.ValueError.
Proof.
  unfold read_line_text. cbv zeta.
  destruct (line_number <? 1)%Z eqn:E1; cbn [orb].
  - replace (1 <=? line_number)%Z with false by (symmetry; apply Z.leb_gt, Z.ltb_lt, E1).
    reflexivity.
  - apply Z.ltb_ge in E1.
    replace (1 <=? line_number)%Z with true by (symmetry; apply Z.leb_le, E1).
    cbn [andb]. rewrite Z.ltb_antisym.
    destruct (line_number <=? Z.of_nat (List.length (Py.splitlines text)))%Z eqn:E2;
      cbn [negb]; [|reflexivity].
    apply Z.leb_le in E2.
    rewrite (getitem_int_in_range (Py.splitlines text) (line_number - 1) []) by lia.
    reflexivity.
Qed.

(** ** The notification channels: [send_md_to_notifications] *)

Ltac lookup_name :=
  repeat first
    [ rewrite lookup_insert_eq
    | rewrite lookup_insert_ne by (vm_compute; discriminate)
    | rewrite lookup_empty ].

Ltac answer_posts post :=
  repeat match goal with
         | |- context [post ?w ?r] => is_var w; destruct (post w r) as [[?|?] ?]
         end.

Ltac channel_case :=
  unfold channel_report, reported, silent; cbn [fst];
  lookup_name;
  first [ solve [split; reflexivity]
        | solve [left; eexists; split; reflexivity]
        | solve [right; eexists; split; reflexivity] ].

Lemma result_names_cover (results : gmap (list N) entry) name (e : entry) k :
  In name result_names ->
  (is_Some (results !! k) -> In k result_names) ->
  is_Some (<[name := e]> results !! k) -> In k result_names.
Proof.
  intros Hn IH H. apply lookup_insert_is_Some in H.
  destruct H as [<-|[_ H]]; auto.
Qed.

(** X20. Whatever the network does, a failing channel does not keep the
    others from being tried and the function returns: for each of the four
    channels, when it is configured the result holds either its status code
    or its error text, never both and never neither; when it is not
    configured the result holds nothing about it. Telegram counts as
    configured only with both the bot token and the chat id. The result has
    no other entries. *)
Theorem every_channel_reports_independently (world : Type)
    (post : world -> request -> outcome * world)
    (md_text : str) (config : gmap (list N) (list N)) (proxy_url : option str)
    (w : world) :
  let results := fst (send_md_to_notifications world post md_text config proxy_url w) in
  channel_report (py_truthy (config !! cfg_feishu)) results res_feishu res_feishu_error
  /\ channel_report (py_truthy (config !! cfg_dingtalk)) results
       res_dingtalk res_dingtalk_error
  /\ channel_report (py_truthy (config !! cfg_wework)) results
       res_wework res_wework_error
  /\ channel_report
       (py_truthy (config !! cfg_telegram_token) && py_truthy (config !! cfg_telegram_chat))
       results res_telegram res_telegram_error
  /\ forall k, is_Some (results !! k) -> In k result_names.
Proof.
  unfold send_md_to_notifications. cbv zeta.
  generalize (proxies_for proxy_url). intros proxies.
  destruct (py_truthy (config !! cfg_feishu));
    destruct (py_truthy (config !! cfg_dingtalk));
    destruct (py_truthy (config !! cfg_wework));
    destruct (py_truthy (config !! cfg_telegram_token)
              && py_truthy (config !! cfg_telegram_chat));
    unfold attempt; answer_posts post;
    (split; [channel_case|split; [channel_case|split; [channel_case|split; [channel_case|]]]]);
    cbn [fst]; intros k;
    repeat (apply result_names_cover; [vm_compute; tauto|]);
    rewrite lookup_empty; intros [x Hx]; discriminate.
Qed.

(** X21. The requests made, for a network that answers in any way: each
    configured channel is sent exactly one request, in the order Feishu,
    DingTalk, WeCom, Telegram, and a channel that is not configured is sent
    none. A failure is not retried and does not change what the later
    channels are sent; every request carries the whole text and the same
    proxies. *)
Theorem configured_channels_are_contacted_once_in_order
    (respond : request -> outcome)
    (md_text : str) (config : gmap (list N) (list N)) (proxy_url : option str)
    (made : list request) :
  snd (send_md_to_notifications (list request) (logging respond)
         md_text config proxy_url made)
  = made
    ++ when (py_truthy (config !! cfg_feishu))
         (feishu_request md_text config (proxies_for proxy_url))
    ++ when (py_truthy (config !! cfg_dingtalk))
         (dingtalk_request md_text config (proxies_for proxy_url))
    ++ when (py_truthy (config !! cfg_wework))
         (wework_request md_text config (proxies_for proxy_url))
    ++ when (py_truthy (config !! cfg_telegram_token)
             && py_truthy (config !! cfg_telegram_chat))
         (telegram_request md_text config (proxies_for proxy_url)).
Proof.
  unfold send_md_to_notifications. cbv zeta.
  generalize (proxies_for proxy_url). intros proxies.
  generalize (feishu_request md_text config proxies)
             (dingtalk_request md_text config proxies)
             (wework_request md_text config proxies)
             (telegram_request md_text config proxies).
  intros r1 r2 r3 r4.
  destruct (py_truthy (config !! cfg_feishu));
    destruct (py_truthy (config !! cfg_dingtalk));
    destruct (py_truthy (config !! cfg_wework));
    destruct (py_truthy (config !! cfg_telegram_token)
              && py_truthy (config !! cfg_telegram_chat));
    unfold attempt, logging, when;
    repeat match goal with
           | |- context [respond ?r] => destruct (respond r)
           end;
    cbn [snd app]; rewrite <- ?app_assoc, ?app_nil_r; reflexivity.
Qed.

(** * The priority items *)














